(** * GPU credit-auction scheduler: a shallow embedding of [app.py]

    The scheduler keeps one in-process store (users, days, bid log, policy)
    and a volatile table of telemetry samples.  Every operation of the
    source that the properties below talk about is written here as a pure
    function from the store (and the clock) to an outcome and a new store.

    Modelling conventions.
    - Wall-clock instants are seconds (in [Z]) since 1970-01-01T00:00 in the
      scheduler's fixed zone.  All datetimes of the source carry the same
      [tzinfo] object, so Python compares and shifts them by wall-clock value.
    - A day key [YYYY-MM-DD] is the ordinal of that date (days since
      1970-01-01); the lexicographic order of the keys is the order of the
      ordinals.
    - Slot keys stay strings.  [datetime.strptime] and the formatting of a
      slot key are library code: they are parameters of the development.
    - A Python float is an IEEE-754 double.  A finite double is kept as the
      rational it denotes ([Qc]); float arithmetic rounds the exact result
      to the nearest double ([round_float]).  Amounts are assumed to stay
      far below 2^1024, so [inf], [nan] and [OverflowError] do not arise.
    - [state["days"]], the telemetry tables and the payout table are Python
      dicts whose iteration order is observable; they are insertion-ordered
      association lists.  Users and the slots of a day are finite maps.
    - Durable persistence ([save_state]) is not part of the model, and each
      function is the critical section it runs under the locks.  Of the
      locks themselves one effect is modelled: a request that acquires the
      same per-slot lock twice never returns. *)

From Stdlib Require Import Ascii QArith Qcanon Qround.
From stdpp Require Import gmap strings list numbers sorting pretty.

Open Scope Z_scope.

(** ** Insertion-ordered dictionaries *)

Section odict.
Context {K V : Type} `{EqDecision K}.

Fixpoint dget (k : K) (d : list (K * V)) : option V :=
  match d with
  | [] => None
  | (k', v) :: d' => if decide (k = k') then Some v else dget k d'
  end.

(** [d[k] = v]: replace in place, or append at the end. *)
Fixpoint dset (k : K) (v : V) (d : list (K * V)) : list (K * V) :=
  match d with
  | [] => [(k, v)]
  | (k', v') :: d' =>
      if decide (k = k') then (k, v) :: d' else (k', v') :: dset k v d'
  end.

(** Mutation of the object stored under [k] (no effect when absent). *)
Fixpoint dalter (f : V → V) (k : K) (d : list (K * V)) : list (K * V) :=
  match d with
  | [] => []
  | (k', v) :: d' =>
      if decide (k = k') then (k', f v) :: d' else (k', v) :: dalter f k d'
  end.

(** [d.pop(k)] *)
Fixpoint dpop (k : K) (d : list (K * V)) : list (K * V) :=
  match d with
  | [] => []
  | (k', v) :: d' => if decide (k = k') then d' else (k', v) :: dpop k d'
  end.

Definition dkeys (d : list (K * V)) : list K := d.*1.
End odict.

(** ** Floating point

    The result of a float operation is the double nearest to the exact
    result, ties going to the even significand: 53 significant bits, and
    multiples of 2^-1074 below 2^-1022. *)

(** [num / den] rounded to the nearest integer, ties to even. *)
Definition round_half_even (num den : Z) : Z :=
  let q := num `div` den in
  let r := num `mod` den in
  if decide (2 * r < den) then q
  else if decide (den < 2 * r) then q + 1
  else if Z.even q then q else q + 1.

(** [floor (log2 (a / d))] for positive [a] and [d]. *)
Definition floor_log2 (a d : Z) : Z :=
  let l := Z.log2 a - Z.log2 d in
  if decide (0 ≤ l)
  then (if decide (d * 2 ^ l ≤ a) then l else l - 1)
  else (if decide (d ≤ a * 2 ^ (- l)) then l else l - 1).

Definition round_float (q : Qc) : Qc :=
  let n := Qnum (this q) in
  let d := Z.pos (Qden (this q)) in
  let a := Z.abs n in
  if decide (n = 0) then 0%Qc else
  let e := Z.max (floor_log2 a d - 52) (-1074) in
  let r :=
    if decide (0 ≤ e)
    then inject_Z (round_half_even a (d * 2 ^ e) * 2 ^ e)
    else Qmake (round_half_even (a * 2 ^ (- e)) d) (Z.to_pos (2 ^ (- e))) in
  Q2Qc (if decide (n < 0) then Qopp r else r).

(** [x + y], [x - y] and [x * y] on floats. *)
Definition float_add (a b : Qc) : Qc := round_float (a + b).
Definition float_sub (a b : Qc) : Qc := round_float (a - b).
Definition float_mul (a b : Qc) : Qc := round_float (a * b).

(** [float(n)] for an integer, and [float(x)] for a stored number (an
    integer or already a float). *)
Definition float_of_Z (z : Z) : Qc := round_float (Qc_of_Z z).
Definition py_float (q : Qc) : Qc := round_float q.

(** ** Data model *)

Definition NUM_GPUS : Z := 8.
Definition HOURS_PER_DAY : Z := 24.
(** The float literals [0.34] and [0.5]. *)
Definition RELEASE_REFUND_CREDITS : Qc := round_float (Q2Qc (34 # 100)).
Definition HALF : Qc := Q2Qc (1 # 2).
Definition BID_LOG_LIMIT : nat := 500.

Inductive DayStatus := Executing | Open | Final | Future.

Global Instance DayStatus_eq_dec : EqDecision DayStatus.
Proof. solve_decision. Defined.

Record BidRec := mkBid {
  bid_username : string;
  bid_price : Z;
  bid_timestamp : Z
}.

(** [actual_user] is a key that may be absent ([None]), present with value
    [None] ([Some None]) or present with a username. *)
Record GpuEntry := mkEntry {
  gpu : Z;
  price : Z;
  winner : option string;
  bids : list BidRec;
  actual_user : option (option string)
}.

Record Slot := mkSlot { gpu_prices : list GpuEntry }.

Record Day := mkDay {
  day_start : Z;
  status : DayStatus;
  slots : gmap string Slot;
  finalized_at : option Z
}.

Record User := mkUser {
  balance : Qc;
  weekly_budget : Z;
  enabled : bool;
  rollover_applied : Z;
  last_refill_week : option Z;
  outbid_notification_queue : list (Z * string * Z)
}.

Record LogRec := mkLog {
  log_username : string;
  log_week : Z;
  log_slot : string;
  log_gpu : Z;
  log_price : Z;
  log_timestamp : Z
}.

Record State := mkState {
  users : gmap string User;
  days : list (Z * Day);
  bid_log : list LogRec;
  reserved_slots : gmap Z (list string);
  day_transition_hour : Z
}.

(** Telemetry sample tables:
    day key -> slot key -> gpu index -> username -> count. *)
Definition Samples : Type := list (string * Z).
Definition Tracking : Type := list (Z * list (string * list (nat * Samples))).

(** A bid, undo or release target as it arrives in a request. *)
Record Target := mkTarget { t_week : Z; t_slot : string; t_gpu : Z }.

Global Instance Target_eq_dec : EqDecision Target.
Proof. solve_decision. Defined.

Inductive ErrorKind :=
  | EAuthRequired | EMissingBids | ENoSlotsProvided
  | EGpuOutOfRange | EInvalidGpu
  | EDayNotFound | EDayNotOpen | EDayNotExecuting
  | ESlotNotFound | EBadSlotKey
  | EReserved | EInsufficientCredit
  | ENotOwner | EConflict | ETooLate
  | ENoOpenDays.

(** What a request handler hands back: a success payload, an
    [{"error": ...}] dictionary, or an uncaught Python exception. *)
Inductive Outcome (A : Type) :=
  | Done (a : A)
  | Failed (e : ErrorKind)
  | Raised.
Global Arguments Done {A} a.
Global Arguments Failed {A} e.
Global Arguments Raised {A}.

(** The success payload of an outcome, if any. *)
Definition done_value {A} (o : Outcome A) : option A :=
  match o with
  | Done a => Some a
  | _ => None
  end.

(** Field updates. *)
Definition set_price (p : Z) (e : GpuEntry) : GpuEntry :=
  mkEntry (gpu e) p (winner e) (bids e) (actual_user e).
Definition set_winner (w : option string) (e : GpuEntry) : GpuEntry :=
  mkEntry (gpu e) (price e) w (bids e) (actual_user e).
Definition set_bids (b : list BidRec) (e : GpuEntry) : GpuEntry :=
  mkEntry (gpu e) (price e) (winner e) b (actual_user e).
Definition set_actual_user (a : option string) (e : GpuEntry) : GpuEntry :=
  mkEntry (gpu e) (price e) (winner e) (bids e) (Some a).

Definition set_status (s : DayStatus) (d : Day) : Day :=
  mkDay (day_start d) s (slots d) (finalized_at d).
Definition set_finalized_at (t : option Z) (d : Day) : Day :=
  mkDay (day_start d) (status d) (slots d) t.
Definition set_slots (m : gmap string Slot) (d : Day) : Day :=
  mkDay (day_start d) (status d) m (finalized_at d).

Definition set_balance (b : Qc) (u : User) : User :=
  mkUser b (weekly_budget u) (enabled u) (rollover_applied u)
         (last_refill_week u) (outbid_notification_queue u).
Definition set_queue (q : list (Z * string * Z)) (u : User) : User :=
  mkUser (balance u) (weekly_budget u) (enabled u) (rollover_applied u)
         (last_refill_week u) q.
Definition refill (next_day_key : Z) (u : User) : User :=
  let daily_budget := float_of_Z (weekly_budget u) in
  let current_balance := py_float (balance u) in
  mkUser (float_add current_balance daily_budget) (weekly_budget u)
         (enabled u) 0 (Some next_day_key) (outbid_notification_queue u).

Definition set_users (us : gmap string User) (st : State) : State :=
  mkState us (days st) (bid_log st) (reserved_slots st) (day_transition_hour st).
Definition set_days (ds : list (Z * Day)) (st : State) : State :=
  mkState (users st) ds (bid_log st) (reserved_slots st) (day_transition_hour st).
Definition set_bid_log (l : list LogRec) (st : State) : State :=
  mkState (users st) (days st) l (reserved_slots st) (day_transition_hour st).

(** Python truthiness of a value that is [None] or a string. *)
Definition truthy (w : option string) : bool :=
  match w with
  | Some s => bool_decide (s ≠ "")
  | None => false
  end.

(** [int(x)] on a float: truncation towards zero. *)
Definition py_int (q : Qc) : Z := Z.quot (Qnum (this q)) (Zpos (Qden (this q))).

(** [max(0.0, x)] *)
Definition max0 (q : Qc) : Qc := if decide (0 ≤ q)%Qc then q else 0%Qc.

(** ** Clock and calendar *)

Definition HOUR : Z := 3600.
Definition DAY : Z := 86400.

Definition hour_of (now : Z) : Z := (now `mod` DAY) `div` HOUR.
Definition format_day (dt : Z) : Z := dt `div` DAY.
(** [now.replace(minute=0, second=0, microsecond=0)] *)
Definition hour_floor (now : Z) : Z := HOUR * (now `div` HOUR).

Definition day_start_for (th now : Z) : Z :=
  let dt := if decide (hour_of now < th) then now - DAY else now in
  format_day dt * DAY + th * HOUR.

Definition parse_day (th key : Z) : Z := key * DAY + th * HOUR.

Definition day_close_time (start : Z) : Z := start + DAY - 1.

(** ** Queries on the store *)

Definition find_day_by_status (s : DayStatus) (st : State) : option (Z * Day) :=
  list_find (λ kd, status kd.2 = s) (days st) ≫= λ r, Some r.2.

Fixpoint insert_by_key {A} (x : Z * A) (l : list (Z * A)) : list (Z * A) :=
  match l with
  | [] => [x]
  | y :: l' => if decide (x.1 ≤ y.1) then x :: y :: l' else y :: insert_by_key x l'
  end.

(** [sorted(results, key=lambda x: x[0])] (stable). *)
Definition sort_by_key {A} (l : list (Z * A)) : list (Z * A) :=
  foldr insert_by_key [] l.

Definition find_days_by_status (s : DayStatus) (st : State) : list (Z * Day) :=
  sort_by_key (filter (λ kd, status kd.2 = s) (days st)).

Definition entry_commit (username : string) (e : GpuEntry) : Z :=
  if decide (winner e = Some username) then price e else 0.

Definition slot_commit (username : string) (sl : Slot) : Z :=
  foldr (λ e acc, entry_commit username e + acc) 0 (gpu_prices sl).

Definition day_commit (username : string) (d : Day) : Z :=
  foldr (λ ks acc, slot_commit username ks.2 + acc) 0 (map_to_list (slots d)).

Definition committed_for_user (username : string) (st : State) : Z :=
  foldr (λ kd acc, day_commit username kd.2 + acc) 0
        (find_days_by_status Open st).

(** The sum [committed_for_user] computes, without the sort. *)
Definition open_commit (username : string) (ds : list (Z * Day)) : Z :=
  foldr (λ kd acc, day_commit username kd.2 + acc) 0
        (filter (λ kd, status kd.2 = Open) ds).

Definition get_entry (week : Z) (slot : string) (g : nat) (st : State)
  : option GpuEntry :=
  d ← dget week (days st); sl ← slots d !! slot; gpu_prices sl !! g.

(** Mutation of the entry object reached through
    [state["days"][week]["slots"][slot]["gpu_prices"][g]]. *)
Definition alter_entry (f : GpuEntry → GpuEntry)
    (week : Z) (slot : string) (g : nat) (st : State) : State :=
  set_days
    (dalter (λ d, set_slots
       (alter (λ sl, mkSlot (alter f g (gpu_prices sl))) slot (slots d)) d)
       week (days st)) st.

Definition reserved_tag (slot : string) (g : Z) : string :=
  slot +:+ "_gpu" +:+ pretty g.

Definition is_reserved (week : Z) (slot : string) (g : Z) (st : State) : bool :=
  bool_decide (reserved_tag slot g ∈ default [] (reserved_slots st !! week)).

(** [get_session_user]: the caller of a user operation is an enabled user
    of the store. *)
Definition session_user (username : string) (st : State) : option User :=
  u ← users st !! username; if enabled u then Some u else None.

(** Usernames found in [entry["bids"]] other than the bidder.  The source
    collects them in a set; each name is then handled once and touches only
    its own user object. *)
Definition outbid_users (username : string) (e : GpuEntry) : list string :=
  remove_dups
    (filter (λ n, n ≠ "" ∧ n ≠ username) (bid_username <$> bids e)).

Definition notify (sid : Z * string * Z) (us : gmap string User)
    (name : string) : gmap string User :=
  match us !! name with
  | Some o =>
      if decide (sid ∈ outbid_notification_queue o) then us
      else <[name := set_queue (outbid_notification_queue o ++ [sid]) o]> us
  | None => us
  end.

Definition take_bid (username : string) (new_price ts : Z) (e : GpuEntry)
  : GpuEntry :=
  set_bids (bids e ++ [mkBid username new_price ts])
    (set_winner (Some username) (set_price new_price e)).

(** The mutation both bid paths perform for one target: raise the entry,
    queue the outbid notifications, append to the bid log. *)
Definition commit_bid (username : string) (t : Target) (new_price ts : Z)
    (st : State) : State :=
  let g := Z.to_nat (t_gpu t) in
  let outbid :=
    from_option (outbid_users username) [] (get_entry (t_week t) (t_slot t) g st) in
  let st1 := alter_entry (take_bid username new_price ts) (t_week t) (t_slot t) g st in
  let st2 :=
    set_users (foldl (notify (t_week t, t_slot t, t_gpu t)) (users st1) outbid) st1 in
  set_bid_log
    (bid_log st2 ++ [mkLog username (t_week t) (t_slot t) (t_gpu t) new_price ts])
    st2.

(** [state["bid_log"] = state["bid_log"][-500:]] when longer than 500. *)
Definition truncate_log (st : State) : State :=
  if decide (BID_LOG_LIMIT < length (bid_log st))%nat
  then set_bid_log (drop (length (bid_log st) - BID_LOG_LIMIT) (bid_log st)) st
  else st.

(** ** Single bid *)

Definition place_bid (username : string) (t : Target) (ts : Z) (st : State)
  : Outcome (Z * string) * State :=
  match session_user username st with
  | None => (Failed EAuthRequired, st)
  | Some user =>
  if decide (t_gpu t < 0 ∨ NUM_GPUS ≤ t_gpu t) then (Failed EGpuOutOfRange, st) else
  match dget (t_week t) (days st) with
  | None => (Failed EDayNotFound, st)
  | Some day =>
  if decide (status day ≠ Open) then (Failed EDayNotOpen, st) else
  match slots day !! t_slot t with
  | None => (Failed ESlotNotFound, st)
  | Some slot =>
  match gpu_prices slot !! Z.to_nat (t_gpu t) with
  | None => (Raised, st)
  | Some entry =>
  if is_reserved (t_week t) (t_slot t) (t_gpu t) st then (Failed EReserved, st) else
  let current_price := price entry in
  let new_price := current_price + 1 in
  let committed := committed_for_user username st in
  let available_balance := py_int (balance user) in
  let committed :=
    if decide (winner entry = Some username) then committed - current_price
    else committed in
  if decide (committed + new_price > available_balance)
  then (Failed EInsufficientCredit, st)
  else (Done (new_price, username),
        truncate_log (commit_bid username t new_price ts st))
  end end end end.

(** A run of single bids by one user in which every bid is accepted. *)
Fixpoint place_bids (username : string) (reqs : list (Target * Z)) (st : State)
  : option State :=
  match reqs with
  | [] => Some st
  | (t, ts) :: reqs' =>
      match place_bid username t ts st with
      | (Done _, st') => place_bids username reqs' st'
      | _ => None
      end
  end.

(** ** Bulk bid *)

(** The [gpu] value of a bid as it arrives in the JSON payload: a number (an
    integer or a float, taken by its value: Python compares and hashes 3 and
    3.0 alike) or a string.  A bid carries a day key, a slot key and such a
    gpu value; payloads with a field missing, null or of another JSON type
    are not represented. *)
Inductive RawGpu := GNum (q : Qc) | GStr (s : string).

Record RawBid := mkRawBid { r_week : Z; r_slot : string; r_gpu : RawGpu }.

Global Instance RawGpu_eq_dec : EqDecision RawGpu.
Proof. solve_decision. Defined.

Global Instance RawBid_eq_dec : EqDecision RawBid.
Proof. solve_decision. Defined.

Definition same_kind (a b : RawGpu) : bool :=
  match a, b with
  | GNum _, GNum _ | GStr _, GStr _ => true
  | _, _ => false
  end.

(** [sorted] orders the bids by [(week, slot, gpu)].  Two bids of the same
    week and slot are told apart by their gpu values, and a number does not
    compare with a string ([TypeError]); a sort cannot order a list holding
    such a pair without comparing one. *)
Definition comparable (bids : list RawBid) : bool :=
  forallb (λ a,
    forallb (λ b,
      implb (bool_decide (r_week a = r_week b ∧ r_slot a = r_slot b))
            (same_kind (r_gpu a) (r_gpu b))) bids) bids.

Definition raw_gpu_le (a b : RawGpu) : bool :=
  match a, b with
  | GNum x, GNum y => bool_decide (x ≤ y)%Qc
  | GStr x, GStr y => negb (String.ltb y x)
  | _, _ => true
  end.

Definition raw_bid_le (a b : RawBid) : bool :=
  if decide (r_week a < r_week b) then true
  else if decide (r_week b < r_week a) then false
  else if String.ltb (r_slot a) (r_slot b) then true
  else if String.ltb (r_slot b) (r_slot a) then false
  else raw_gpu_le (r_gpu a) (r_gpu b).

Fixpoint insert_bid (x : RawBid) (l : list RawBid) : list RawBid :=
  match l with
  | [] => [x]
  | y :: l' => if raw_bid_le x y then x :: y :: l' else y :: insert_bid x l'
  end.

Definition sort_bids (l : list RawBid) : list RawBid :=
  foldr insert_bid [] l.

(** Keep the first occurrence of every [(week, slot, gpu)] as it arrived
    ([seen_slots]): the values are compared before [int] is applied. *)
Fixpoint unique_bids (seen l : list RawBid) : list RawBid :=
  match l with
  | [] => []
  | b :: l' =>
      if decide (b ∈ seen) then unique_bids seen l'
      else b :: unique_bids (b :: seen) l'
  end.

(** [int(gpu_index)]: truncation for a number, [int_of_str] (the library's
    conversion, [None] for [ValueError]) for a string. *)
Definition gpu_int (int_of_str : string → option Z) (g : RawGpu) : option Z :=
  match g with
  | GNum q => Some (py_int q)
  | GStr s => int_of_str s
  end.

(** The loop collecting the lock keys: the first bid whose gpu does not
    convert, or is out of range, ends the request. *)
Fixpoint convert_bids (int_of_str : string → option Z) (l : list RawBid)
  : Outcome (list Target) :=
  match l with
  | [] => Done []
  | b :: l' =>
      match gpu_int int_of_str (r_gpu b) with
      | None => Failed EInvalidGpu
      | Some g =>
          if decide (g < 0 ∨ NUM_GPUS ≤ g) then Failed EGpuOutOfRange else
          match convert_bids int_of_str l' with
          | Done ts => Done (mkTarget (r_week b) (r_slot b) g :: ts)
          | Failed e => Failed e
          | Raised => Raised
          end
      end
  end.


Record Validation := mkValidation {
  v_target : Target;
  v_current_price : Z;
  v_new_price : Z;
  v_is_mine : bool
}.

(** The validation loop: the first failing bid ends the request. *)
Fixpoint validate_bids (username : string) (st : State) (l : list Target)
  : Outcome (list Validation) :=
  match l with
  | [] => Done []
  | t :: l' =>
      match dget (t_week t) (days st) with
      | None => Failed EDayNotFound
      | Some day =>
      if decide (status day ≠ Open) then Failed EDayNotOpen else
      match slots day !! t_slot t with
      | None => Failed ESlotNotFound
      | Some slot =>
      match gpu_prices slot !! Z.to_nat (t_gpu t) with
      | None => Raised
      | Some entry =>
      if is_reserved (t_week t) (t_slot t) (t_gpu t) st then Failed EReserved else
      match validate_bids username st l' with
      | Done vs =>
          Done (mkValidation t (price entry) (price entry + 1)
                  (bool_decide (winner entry = Some username)) :: vs)
      | Failed e => Failed e
      | Raised => Raised
      end end end end
  end.

Definition bulk_committed (committed : Z) (vs : list Validation) : Z :=
  foldl (λ c v, if v_is_mine v then c - v_current_price v else c) committed vs.

Definition bulk_total_cost (vs : list Validation) : Z :=
  foldl (λ c v, c + v_new_price v) 0 vs.

Definition execute_bids (username : string) (ts : Z) (vs : list Validation)
    (st : State) : State :=
  foldl (λ s v, commit_bid username (v_target v) (v_new_price v) ts s) st vs.

Definition place_bulk_bids (int_of_str : string → option Z)
    (username : string) (bids : list RawBid) (ts : Z) (st : State)
  : Outcome (list (string * Z * Z)) * State :=
  match session_user username st with
  | None => (Failed EAuthRequired, st)
  | Some user =>
  match bids with
  | [] => (Failed EMissingBids, st)
  | _ =>
  if comparable bids then
  let sorted_bids := unique_bids [] (sort_bids bids) in
  match convert_bids int_of_str sorted_bids with
  | Failed e => (Failed e, st)
  | Raised => (Raised, st)
  | Done targets =>
  match validate_bids username st targets with
  | Failed e => (Failed e, st)
  | Raised => (Raised, st)
  | Done validations =>
      let committed :=
        bulk_committed (committed_for_user username st) validations in
      let available_balance := py_int (balance user) in
      let total_cost := bulk_total_cost validations in
      if decide (committed + total_cost > available_balance)
      then (Failed EInsufficientCredit, st)
      else
        (Done ((λ v, (t_slot (v_target v), t_gpu (v_target v), v_new_price v))
                 <$> validations),
         truncate_log (execute_bids username ts validations st))
  end end
  else (Raised, st)
  end end.



(** ** Undo *)

Definition pop_own_bid (username : string) (e : GpuEntry) : GpuEntry :=
  match last (bids e) with
  | Some b =>
      if decide (bid_username b = username)
      then set_bids (take (length (bids e) - 1) (bids e)) e
      else e
  | None => e
  end.

Definition undo_bid (username : string) (t : Target)
    (previous_winner : option string) (previous_price : Z) (st : State)
  : Outcome unit * State :=
  match session_user username st with
  | None => (Failed EAuthRequired, st)
  | Some user =>
  if decide (t_gpu t < 0 ∨ NUM_GPUS ≤ t_gpu t) then (Failed EGpuOutOfRange, st) else
  match dget (t_week t) (days st) with
  | None => (Failed EDayNotFound, st)
  | Some day =>
  if decide (status day ≠ Open) then (Failed EDayNotOpen, st) else
  match slots day !! t_slot t with
  | None => (Failed ESlotNotFound, st)
  | Some slot =>
  match gpu_prices slot !! Z.to_nat (t_gpu t) with
  | None => (Raised, st)
  | Some entry =>
  if decide (winner entry ≠ Some username) then (Failed ENotOwner, st) else
  if truthy previous_winner && bool_decide (previous_winner ≠ Some username)
  then (Failed EConflict, st)
  else
    (Done (),
     alter_entry
       (λ e, pop_own_bid username
               (set_price previous_price (set_winner previous_winner e)))
       (t_week t) (t_slot t) (Z.to_nat (t_gpu t)) st)
  end end end end.

Section scheduler.
(** [datetime.strptime(key, "%Y-%m-%dT%H:%M")] as wall-clock seconds, [None]
    when the key does not parse; and the key [slot_id(day_str, hour)] of the
    slot of a calendar day and hour. *)
Variable strptime : string → option Z.
Variable slot_id : Z → Z → string.

(** ** Release *)

Definition clear_entry (e : GpuEntry) : GpuEntry :=
  set_price 0 (set_winner None e).

Definition credit (username : string) (amount : Qc) (st : State) : State :=
  set_users
    (alter (λ u, set_balance (float_add (py_float (balance u)) amount) u)
           username (users st)) st.

Definition release_slot (username : string) (t : Target) (now : Z)
    (st : State) : Outcome Qc * State :=
  match session_user username st with
  | None => (Failed EAuthRequired, st)
  | Some user =>
  if decide (t_gpu t < 0 ∨ NUM_GPUS ≤ t_gpu t) then (Failed EGpuOutOfRange, st) else
  match dget (t_week t) (days st) with
  | None => (Failed EDayNotFound, st)
  | Some day =>
  if decide (status day ≠ Executing) then (Failed EDayNotExecuting, st) else
  match slots day !! t_slot t with
  | None => (Failed ESlotNotFound, st)
  | Some slot =>
  match gpu_prices slot !! Z.to_nat (t_gpu t) with
  | None => (Failed EInvalidGpu, st)
  | Some entry =>
  if decide (winner entry ≠ Some username) then (Failed ENotOwner, st) else
  match strptime (t_slot t) with
  | None => (Failed EBadSlotKey, st)
  | Some slot_datetime =>
  let next_hour := hour_floor now + HOUR in
  if decide (slot_datetime < next_hour) then (Failed ETooLate, st) else
  let slot_price := float_of_Z (price entry) in
  let refund := float_mul slot_price HALF in
  (Done refund,
   alter_entry clear_entry (t_week t) (t_slot t) (Z.to_nat (t_gpu t))
     (credit username refund st))
  end end end end end.

(** One iteration of the bulk-release loop: [Some] store when the entry is
    released, [None] for [continue]. *)
Definition release_one (username : string) (next_hour : Z) (t : Target)
    (st : State) : option State :=
  match dget (t_week t) (days st) with
  | None => None
  | Some week =>
  if decide (status week ≠ Executing) then None else
  match strptime (t_slot t) with
  | None => None
  | Some slot_datetime =>
  if decide (slot_datetime < next_hour) then None else
  match slots week !! t_slot t with
  | None => None
  | Some slot =>
  match gpu_prices slot !! Z.to_nat (t_gpu t) with
  | None => None
  | Some entry =>
  if decide (winner entry ≠ Some username) then None else
  Some (alter_entry clear_entry (t_week t) (t_slot t) (Z.to_nat (t_gpu t)) st)
  end end end end.

(** The loop over the validated items, from a store and a count. *)
Definition release_loop_from (username : string) (next_hour : Z)
    (validated : list Target) (acc : State * nat) : State * nat :=
  foldl (λ acc t,
           match release_one username next_hour t acc.1 with
           | Some st' => (st', S acc.2)
           | None => acc
           end) acc validated.

Definition release_loop (username : string) (next_hour : Z)
    (validated : list Target) (st : State) : State * nat :=
  release_loop_from username next_hour validated (st, 0%nat).

(** [None]: the request never returns.  Before anything else is done the
    per-slot locks of all items are acquired one after the other, with no
    de-duplication; the locks are not reentrant, so a list naming one
    (day, slot, gpu) twice blocks on the lock it already holds. *)
Definition release_slots_bulk (username : string) (slots_to_release : list Target)
    (now : Z) (st : State) : option (Outcome (nat * Qc) * State) :=
  match session_user username st with
  | None => Some (Failed EAuthRequired, st)
  | Some user =>
  match slots_to_release with
  | [] => Some (Failed ENoSlotsProvided, st)
  | _ =>
  if decide (Exists (λ t, t_gpu t < 0 ∨ NUM_GPUS ≤ t_gpu t) slots_to_release)
  then Some (Failed EGpuOutOfRange, st) else
  if decide (NoDup slots_to_release) then
    let next_hour := hour_floor now + HOUR in
    let '(st1, released_count) :=
      release_loop username next_hour slots_to_release st in
    let total_refund :=
      float_mul (float_of_Z (Z.of_nat released_count)) RELEASE_REFUND_CREDITS in
    Some (Done (released_count, total_refund), credit username total_refund st1)
  else None
  end end.

(** ** Day cycle *)

Definition fresh_entry (g : Z) : GpuEntry := mkEntry g 0 None [] None.

Definition fresh_slot : Slot :=
  mkSlot (fresh_entry <$> seqZ 0 NUM_GPUS).

Definition fresh_slots (day_str : Z) : gmap string Slot :=
  foldl (λ m hour, <[slot_id day_str hour := fresh_slot]> m) ∅
        (seqZ 0 HOURS_PER_DAY).

Definition has_data (d : Day) : bool :=
  existsb (λ ks, existsb (λ e, truthy (winner e)) (gpu_prices ks.2))
          (map_to_list (slots d)).

(** Returns the store and the day object now stored under the key. *)
Definition ensure_day_exists (start : Z) (s : DayStatus) (st : State)
  : State * Day :=
  let day_key := format_day start in
  match dget day_key (days st) with
  | Some existing =>
      let existing' := if has_data existing then existing else set_status s existing in
      (set_days (dset day_key existing' (days st)) st, existing')
  | None =>
      let d := mkDay day_key s (fresh_slots (format_day start)) None in
      (set_days (dset day_key d (days st)) st, d)
  end.

(** [payouts[winner] = payouts.get(winner, 0.0) + float(entry["price"])] for
    an entry with a (non-empty) winner.  The slots are taken in the order of
    the finite map; the amounts are sums of integers, exact as doubles and
    so independent of that order as long as they stay within 2^53. *)
Definition add_payout (p : list (string * Qc)) (e : GpuEntry)
  : list (string * Qc) :=
  match winner e with
  | Some w =>
      if truthy (Some w)
      then dset w (float_add (default 0%Qc (dget w p))
                             (float_of_Z (price e))) p
      else p
  | None => p
  end.

Definition payouts_of (d : Day) : list (string * Qc) :=
  foldl (λ p ks, foldl add_payout p (gpu_prices ks.2)) []
        (map_to_list (slots d)).

Definition deduct (us : gmap string User) (pa : string * Qc)
  : gmap string User :=
  match us !! pa.1 with
  | Some u =>
      <[pa.1 := set_balance (max0 (float_sub (py_float (balance u)) pa.2)) u]> us
  | None => us
  end.

Definition finalize_day (now : Z) (d : Day) : Day :=
  let d' := set_status Final d in
  match finalized_at d' with
  | Some _ => d'
  | None => set_finalized_at (Some now) d'
  end.

Definition promote_day (now : Z) (d : Day) : Day :=
  set_finalized_at (Some now) (set_status Executing d).

Definition advance_day_cycle (now : Z) (st : State)
  : Outcome (Z * Z) * State :=
  let th := day_transition_hour st in
  let current_entry := find_day_by_status Executing st in
  let open_days := find_days_by_status Open st in
  match open_days with
  | [] => (Failed ENoOpenDays, st)
  | (next_day_key, next_day_data) :: _ =>
      let '(st1, current_key) :=
        match current_entry with
        | Some (k, _) => (st, k)
        | None =>
            let k := format_day (day_start_for th now) in
            ((ensure_day_exists (parse_day th k) Executing st).1, k)
        end in
      let payouts := payouts_of next_day_data in
      let st2 := set_users (foldl deduct (users st1) payouts) st1 in
      let st3 :=
        set_users
          ((λ u, if enabled u then refill next_day_key u else u) <$> users st2)
          st2 in
      let st4 := set_days (dalter (finalize_day now) current_key (days st3)) st3 in
      let st5 := set_days (dalter (promote_day now) next_day_key (days st4)) st4 in
      let new_current_start := parse_day th next_day_key in
      let new_open_day_start := new_current_start + 6 * DAY in
      let new_open_day_key := format_day new_open_day_start in
      let st6 := set_days (dpop new_open_day_key (days st5)) st5 in
      let '(st7, _) := ensure_day_exists new_open_day_start Open st6 in
      (Done (next_day_key, new_open_day_key), st7)
  end.

Fixpoint auto_advance_loop (iterations : nat) (now : Z)
    (result : option (Outcome (Z * Z))) (st : State)
  : option (Outcome (Z * Z)) * State :=
  match iterations with
  | O => (result, st)
  | S n =>
      match find_day_by_status Executing st with
      | None => (result, st)
      | Some (current_key, _) =>
          let cutoff :=
            day_close_time (parse_day (day_transition_hour st) current_key) in
          if decide (now < cutoff) then (result, st)
          else
            let '(r, st') := advance_day_cycle now st in
            auto_advance_loop n now (Some r) st'
      end
  end.

Definition maybe_auto_advance (now : Z) (st : State)
  : option (Outcome (Z * Z)) * State :=
  auto_advance_loop 10 now None st.

(** ** Telemetry *)








(** [max(user_counts.items(), key=lambda x: x[1])]: the first item whose
    count is maximal. *)
Fixpoint max_item (best : string * Z) (l : Samples) : string * Z :=
  match l with
  | [] => best
  | x :: l' => max_item (if decide (best.2 < x.2) then x else best) l'
  end.

Definition most_frequent (user_counts : Samples) : option string :=
  match user_counts with
  | [] => None
  | x :: l => Some (max_item x l).1
  end.

Definition finalize_gpu (day_key : Z) (slot_key : string)
    (acc : State * nat) (gc : nat * Samples) : State * nat :=
  match get_entry day_key slot_key gc.1 acc.1 with
  | None => acc
  | Some entry =>
      match actual_user entry with
      | Some _ => acc
      | None =>
          (alter_entry (set_actual_user (most_frequent gc.2))
             day_key slot_key gc.1 acc.1, S acc.2)
      end
  end.

Definition finalize_slot (current_hour_start : Z) (day_key : Z) (day : Day)
    (acc : State * nat) (sg : string * list (nat * Samples)) : State * nat :=
  match strptime sg.1 with
  | None => acc
  | Some slot_datetime =>
      let slot_end := slot_datetime + HOUR in
      if decide (slot_end > current_hour_start) then acc else
      match slots day !! sg.1 with
      | None => acc
      | Some _ => foldl (finalize_gpu day_key sg.1) acc sg.2
      end
  end.

Definition finalize_tracked_day (current_hour_start : Z) (acc : State * nat)
    (ds : Z * list (string * list (nat * Samples))) : State * nat :=
  match dget ds.1 (days acc.1) with
  | None => acc
  | Some day =>
      if decide (status day = Executing ∨ status day = Final)
      then foldl (finalize_slot current_hour_start ds.1 day) acc ds.2
      else acc
  end.

Definition days_to_keep (th now : Z) : list Z :=
  (λ offset, format_day (day_start_for th now + offset * DAY)) <$> seqZ (-7) 8.

Definition finalize_past_gpu_slots (now : Z) (st : State) (trk : Tracking)
  : State * Tracking * nat :=
  let current_hour_start := hour_floor now in
  let '(st', finalized_count) :=
    foldl (finalize_tracked_day current_hour_start) (st, 0%nat) trk in
  let keep := days_to_keep (day_transition_hour st) now in
  (st', filter (λ ds, ds.1 ∈ keep) trk, finalized_count).

(** ** The per-request state update *)

Definition ensure_open (st : State) (day_key : Z) : State :=
  match dget day_key (days st) with
  | None =>
      (ensure_day_exists (parse_day (day_transition_hour st) day_key) Open st).1
  | Some d =>
      if decide (status d ≠ Open)
      then set_days (dalter (set_status Open) day_key (days st)) st
      else st
  end.

Definition update_system_state (now : Z) (st : State) (trk : Tracking)
  : State * Tracking :=
  let th := day_transition_hour st in
  let '(st1, current_key) :=
    match find_day_by_status Executing st with
    | Some (k, _) => (st, k)
    | None =>
        let current_day_start := day_start_for th now in
        ((ensure_day_exists current_day_start Executing st).1,
         format_day current_day_start)
    end in
  let current_day_start := parse_day th current_key in
  let expected_open_days :=
    (λ offset, format_day (current_day_start + offset * DAY)) <$> seqZ 1 6 in
  let st2 := foldl ensure_open st1 expected_open_days in
  let '(_, st3) := maybe_auto_advance now st2 in
  let '(st4, trk', _) := finalize_past_gpu_slots now st3 trk in
  (st4, trk').

End scheduler.

(** ** Operations as data *)

(** The store-mutating requests of the auction, release and day-cycle
    engines. *)
Inductive Op :=
  | OpBid (username : string) (t : Target) (ts : Z)
  | OpBulkBid (username : string) (bids : list RawBid) (ts : Z)
  | OpUndo (username : string) (t : Target)
           (previous_winner : option string) (previous_price : Z)
  | OpRelease (username : string) (t : Target) (now : Z)
  | OpReleaseBulk (username : string) (targets : list Target) (now : Z)
  | OpAdvance (now : Z).

(** The store after a request.  A request that never returns has changed
    nothing: it blocks while taking the per-slot locks, before the store is
    read.  (The locks it holds stay taken; that can only keep later requests
    on those entries from returning as well.) *)
Definition run_op (strptime : string → option Z) (slot_id : Z → Z → string)
    (int_of_str : string → option Z) (st : State) (op : Op) : State :=
  match op with
  | OpBid u t ts => (place_bid u t ts st).2
  | OpBulkBid u bs ts => (place_bulk_bids int_of_str u bs ts st).2
  | OpUndo u t pw pp => (undo_bid u t pw pp st).2
  | OpRelease u t now => (release_slot strptime u t now st).2
  | OpReleaseBulk u ts now =>
      from_option snd st (release_slots_bulk strptime u ts now st)
  | OpAdvance now => (advance_day_cycle slot_id now st).2
  end.

(** Invariant (I3) on one entry and on the whole store. *)
Definition entry_ok (e : GpuEntry) : Prop :=
  (1 ≤ price e ↔ winner e ≠ None) ∧ (winner e = None → price e = 0).

Definition day_ok (d : Day) : Prop :=
  ∀ s sl, slots d !! s = Some sl → Forall entry_ok (gpu_prices sl).

Definition store_ok (st : State) : Prop := Forall (λ kd, day_ok kd.2) (days st).

(** An undo request whose restored pair itself respects (I3). *)
Definition undo_consistent (op : Op) : Prop :=
  match op with
  | OpUndo _ _ pw pp => (pw = None ∧ pp = 0) ∨ (pw ≠ None ∧ 1 ≤ pp)
  | _ => True
  end.

(** ** Preconditions of a bulk-release item, read in the initial store *)


(** ** Winners of a day *)

(** All entries of a day, slot by slot. *)
Definition day_entries (d : Day) : list GpuEntry :=
  ks ← map_to_list (slots d); gpu_prices ks.2.

(** [u] is a (non-empty) username that won at least one entry of the day. *)
Definition has_won (u : string) (d : Day) : Prop :=
  u ≠ "" ∧ ∃ s sl e, slots d !! s = Some sl ∧ e ∈ gpu_prices sl ∧ winner e = Some u.

(** [payouts[u]]: the prices of the entries [u] won on the day, added up
    as floats in the order the loop meets them. *)
Definition won_amount (u : string) (d : Day) : Qc :=
  foldl (λ acc e, float_add acc (float_of_Z (price e))) 0%Qc
        (filter (λ e, winner e = Some u) (day_entries d)).

(** The balance after the charge of day rollover: winners pay what they
    won, in float arithmetic and floored at zero; everybody else keeps the
    balance. *)
Definition charged (u : string) (d : Day) (b b' : Qc) : Prop :=
  (has_won u d ∧ b' = max0 (float_sub (py_float b) (won_amount u d))) ∨
  (¬ has_won u d ∧ b' = b).

(** The key under which [advance_day_cycle] finds (or creates) the current
    day. *)
Definition current_key_of (now : Z) (st : State) : Z :=
  match find_day_by_status Executing st with
  | Some (k, _) => k
  | None => format_day (day_start_for (day_transition_hour st) now)
  end.

(** ** Reading the sample tables *)


(** The table holds the sample map [counts] for gpu [g] of slot [s] of day
    [w]. *)
Definition tracked (trk : Tracking) (w : Z) (s : string) (g : nat)
    (counts : Samples) : Prop :=
  ∃ dslots gpus, (w, dslots) ∈ trk ∧ (s, gpus) ∈ dslots ∧ (g, counts) ∈ gpus.

(** What licenses a write of [actual_user] at gpu [g] of slot [s] of day [w]
    from the sample map [counts]: the map is tracked there, the day is
    executing or final, and the slot ended at or before the current hour
    start. *)
Definition finalizable (strptime : string → option Z) (now : Z) (st : State)
    (trk : Tracking) (w : Z) (s : string) (g : nat) (counts : Samples) : Prop :=
  tracked trk w s g counts ∧
  (∃ d, dget w (days st) = Some d ∧ (status d = Executing ∨ status d = Final)) ∧
  (∃ slot_start, strptime s = Some slot_start ∧
                 slot_start + HOUR ≤ hour_floor now).

(** An entry after finalization: untouched, or written once from a sample
    map satisfying [J]. *)
Definition written_once (J : Samples → Prop) (e e' : GpuEntry) : Prop :=
  e' = e ∨
  (actual_user e = None ∧
   ∃ counts, J counts ∧ e' = set_actual_user (most_frequent counts) e).

(** Keys and statuses of the days, in dictionary order. *)
Definition day_statuses (st : State) : list (Z * DayStatus) :=
  (λ kd, (kd.1, status kd.2)) <$> days st.


(** The invariant of the three nested loops, relative to the store [st] the
    run started from. *)
Definition finalize_inv (J : Z → string → nat → Samples → Prop)
    (st : State) (acc : State * nat) : Prop :=
  day_statuses acc.1 = day_statuses st ∧
  users acc.1 = users st ∧ bid_log acc.1 = bid_log st ∧
  (∀ w, status <$> dget w (days acc.1) = status <$> dget w (days st)) ∧
  ∀ w s g,
    match get_entry w s g st with
    | Some e => ∃ e', get_entry w s g acc.1 = Some e' ∧ written_once (J w s g) e e'
    | None => get_entry w s g acc.1 = None
    end.

(** ** The rolling week *)

(** Status of the day stored under a key. *)
Definition status_at (st : State) (k : Z) : option DayStatus :=
  status <$> dget k (days st).

(** Day [e] is the one executing day and the open days are exactly the six
    days after it. *)
Definition week_ok (e : Z) (st : State) : Prop :=
  NoDup (days st).*1 ∧
  ∀ k, (status_at st k = Some Executing ↔ k = e) ∧
       (status_at st k = Some Open ↔ e < k ≤ e + 6).

(** What [update_system_state] needs of the store it starts from: distinct
    keys, a transition hour in range, no executing day besides the current
    one, no open day outside the current day's week, and, when no day is
    executing, no winners yet on today's day (otherwise [ensure_day_exists]
    leaves its status alone). *)
Definition update_ready (now : Z) (st : State) : Prop :=
  NoDup (days st).*1 ∧ 0 ≤ day_transition_hour st < 24 ∧
  (∀ k, status_at st k = Some Executing → k = current_key_of now st) ∧
  (∀ k, status_at st k = Some Open →
        current_key_of now st ≤ k ≤ current_key_of now st + 6) ∧
  (find_day_by_status Executing st = None →
   ∀ d, dget (current_key_of now st) (days st) = Some d → has_data d = false).

(** ** A calendar fragment for concrete runs

    The keys the scheduler itself generates for the days of January 1970
    ([1970-01-DDTHH:00]) and the parser restricted to exactly those keys. *)

Definition digit_char (n : Z) : Ascii.ascii :=
  Ascii.ascii_of_nat (48 + Z.to_nat n).

Definition two_digits (n : Z) : string :=
  String (digit_char (n `div` 10)) (String (digit_char (n `mod` 10)) "").

Definition jan1970_slot_id (day hour : Z) : string :=
  "1970-01-" +:+ two_digits (day + 1) +:+ "T" +:+ two_digits hour +:+ ":00".

Definition digit_value (c : Ascii.ascii) : option Z :=
  let n := Z.of_nat (Ascii.nat_of_ascii c) - 48 in
  if decide (0 ≤ n ≤ 9) then Some n else None.

Definition jan1970_strptime (s : string) : option Z :=
  match s with
  | String "1"%char (String "9"%char (String "7"%char (String "0"%char
    (String "-"%char (String "0"%char (String "1"%char (String "-"%char
    (String d1 (String d0 (String "T"%char
    (String h1 (String h0 (String ":"%char (String "0"%char (String "0"%char
     EmptyString)))))))))))))))
    =>
      a ← digit_value d1; b ← digit_value d0;
      c ← digit_value h1; d ← digit_value h0;
      let day := 10 * a + b in
      let hour := 10 * c + d in
      if decide (1 ≤ day ≤ 31 ∧ hour ≤ 23)
      then Some ((day - 1) * DAY + hour * HOUR) else None
  | _ => None
  end.

(** [int] on non-empty strings of ASCII digits. *)
Fixpoint digits_value (acc : Z) (s : string) : option Z :=
  match s with
  | EmptyString => Some acc
  | String c s' => d ← digit_value c; digits_value (10 * acc + d) s'
  end.

Definition digits_int_of_str (s : string) : option Z :=
  match s with
  | EmptyString => None
  | _ => digits_value 0 s
  end.

Definition demo_user (b : Z) : User :=
  mkUser (Qc_of_Z b) 100 true 0 None [].

(** A day holding fresh slots under the given keys. *)
Definition demo_day (key : Z) (s : DayStatus) (slot_keys : list string) : Day :=
  mkDay key s (foldr (λ k m, <[k := fresh_slot]> m) ∅ slot_keys) None.

(** The entry of slot [sk], gpu [g] of a day is owned by [w] at price [p]. *)
Definition demo_won (sk : string) (g : nat) (w : string) (p : Z) (d : Day) : Day :=
  set_slots
    (alter (λ sl, mkSlot (alter (λ e, set_bids [mkBid w p 0]
                                        (set_winner (Some w) (set_price p e)))
                                g (gpu_prices sl))) sk (slots d)) d.

Definition demo_users : gmap string User :=
  <["alice" := demo_user 10]> (<["bob" := demo_user 5]> ∅).

(** Day 0 executing with alice owning 10:00 gpu 0 at price 4; day 1 open with
    alice owning 09:00 gpu 3 at price 2.  (Two slots a day are enough here.) *)
Definition demo_state : State :=
  mkState demo_users
    [(0, demo_won "1970-01-01T10:00" 0 "alice" 4
           (demo_day 0 Executing ["1970-01-01T03:00"; "1970-01-01T10:00"]));
     (1, demo_won "1970-01-02T09:00" 3 "alice" 2
           (demo_day 1 Open ["1970-01-02T09:00"; "1970-01-02T10:00"]))]
    [] ∅ 0.

(** The same calendar with no bids yet. *)
Definition demo_fresh_state : State :=
  mkState demo_users
    [(0, demo_day 0 Executing ["1970-01-01T03:00"; "1970-01-01T10:00"]);
     (1, demo_day 1 Open ["1970-01-02T09:00"; "1970-01-02T10:00"])]
    [] ∅ 0.

(** [demo_state] with alice's balance at the double 0.34. *)
Definition demo_float_state : State :=
  mkState (<["alice" := set_balance RELEASE_REFUND_CREDITS (demo_user 10)]>
             demo_users)
          (days demo_state) [] ∅ 0.

(** [demo_state] with bob's balance at the double 101.02, where a bulk
    release of three entries leaves an account of 100 credits. *)
Definition demo_refunded_state : State :=
  mkState (<["bob" :=
               set_balance
                 (float_add (py_float (Qc_of_Z 100))
                    (float_mul (float_of_Z 3) RELEASE_REFUND_CREDITS))
                 (demo_user 100)]> demo_users)
          (days demo_state) [] ∅ 0.


(** Samples for gpu 0 at 10:00 of day 0, bob and alice tied at the top with
    bob first seen; and an empty sample map for gpu 1. *)
Definition demo_tracking : Tracking :=
  [(0, [("1970-01-01T10:00",
         [(0%nat, [("carol", 1); ("bob", 3); ("alice", 3)]); (1%nat, [])])])].

(** Day 1 executing, with yesterday's day 0 marked open again (as
    [set_week_status] allows) and no other day stored. *)
Definition demo_stray_state : State :=
  mkState demo_users
    [(0, demo_day 0 Open ["1970-01-01T10:00"]);
     (1, demo_day 1 Executing ["1970-01-02T10:00"])]
    [] ∅ 0.

(** * Properties *)

(** ** Doubles *)

Lemma round_half_even_nonneg num den :
  0 ≤ num → 0 < den → 0 ≤ round_half_even num den.
Proof.
  intros Hn Hd. unfold round_half_even.
  assert (0 ≤ num `div` den) by (by apply Z.div_pos).
  repeat case_decide; try lia. destruct (Z.even _); lia.
Qed.

Lemma round_half_even_exact m den :
  0 < den → round_half_even (m * den) den = m.
Proof.
  intros Hd. unfold round_half_even.
  rewrite Z.div_mul by lia. rewrite Z.mod_mul by lia.
  rewrite decide_True by lia. done.
Qed.

Lemma Q2Qc_nonneg (r : Q) : (0 <= r)%Q → (0 ≤ Q2Qc r)%Qc.
Proof. intros Hr. unfold Qcle. simpl. by rewrite !Qred_correct. Qed.

(** Rounding keeps the sign: a non-negative real rounds to a non-negative
    double. *)
Lemma round_float_nonneg q : (0 ≤ q)%Qc → (0 ≤ round_float q)%Qc.
Proof.
  intros Hq. unfold round_float. case_decide as Hn0; [done|].
  assert (0 < Qnum (this q)) as Hn.
  { unfold Qcle, Qle in Hq. simpl in Hq. lia. }
  rewrite (decide_False (P := Qnum (this q) < 0)) by lia.
  set (e := Z.max _ _). apply Q2Qc_nonneg.
  case_decide as He.
  - assert (0 ≤ round_half_even (Z.abs (Qnum (this q)))
                  (Z.pos (Qden (this q)) * 2 ^ e) * 2 ^ e) as H.
    { apply Z.mul_nonneg_nonneg; [|by apply Z.pow_nonneg].
      apply round_half_even_nonneg; [lia|].
      apply Z.mul_pos_pos; [done|by apply Z.pow_pos_nonneg]. }
    revert H. generalize (round_half_even (Z.abs (Qnum (this q)))
                            (Z.pos (Qden (this q)) * 2 ^ e) * 2 ^ e).
    intros z Hz. unfold Qle. simpl. lia.
  - assert (0 ≤ round_half_even (Z.abs (Qnum (this q)) * 2 ^ (- e))
                  (Z.pos (Qden (this q)))) as H.
    { apply round_half_even_nonneg; [|done].
      apply Z.mul_nonneg_nonneg; [lia|]. apply Z.pow_nonneg. lia. }
    revert H. generalize (round_half_even (Z.abs (Qnum (this q)) * 2 ^ (- e))
                            (Z.pos (Qden (this q)))).
    intros z Hz. unfold Qle. simpl. lia.
Qed.

Lemma floor_log2_int a : 0 < a → floor_log2 a 1 = Z.log2 a.
Proof.
  intros Ha. unfold floor_log2. change (Z.log2 1) with 0. rewrite Z.sub_0_r.
  pose proof (Z.log2_nonneg a). pose proof (Z.log2_spec a Ha) as [Hlo _].
  rewrite decide_True by done. rewrite decide_True by lia. done.
Qed.

(** An integer of absolute value up to 2^53 is a double. *)
Lemma round_float_Z z : Z.abs z ≤ 2 ^ 53 → round_float (Qc_of_Z z) = Qc_of_Z z.
Proof.
  intros Hz. unfold round_float.
  change (Qnum (this (Qc_of_Z z))) with z.
  change (Z.pos (Qden (this (Qc_of_Z z)))) with 1.
  case_decide as Hz0.
  { subst z. by apply Qc_is_canon. }
  assert (0 < Z.abs z) as Hpos by lia.
  pose proof (Z.log2_spec (Z.abs z) Hpos) as [Hlo _].
  rewrite floor_log2_int by done.
  set (e := Z.max _ _).
  assert (e = Z.max (Z.log2 (Z.abs z) - 52) (-1074)) as He_def by done.
  clearbody e.
  assert (Z.log2 (Z.abs z) ≤ 53) as Hl.
  { change 53 with (Z.log2 (2 ^ 53)). by apply Z.log2_le_mono. }
  assert (e ≤ 1) as He1 by lia.
  assert ((if decide (0 ≤ e)
           then inject_Z (round_half_even (Z.abs z) (1 * 2 ^ e) * 2 ^ e)
           else round_half_even (Z.abs z * 2 ^ (- e)) 1 # Z.to_pos (2 ^ (- e)))
          == inject_Z (Z.abs z))%Q as Habs.
  { case_decide as He.
    - assert (e = 0 ∨ e = 1) as [->| ->] by lia.
      + change (1 * 2 ^ 0) with 1. change (2 ^ 0) with 1. rewrite Z.mul_1_r.
        rewrite <-(Z.mul_1_r (Z.abs z)) at 1.
        by rewrite round_half_even_exact.
      + assert (Z.log2 (Z.abs z) = 53) as Hl53 by lia.
        assert (Z.abs z = 2 ^ 53) as ->.
        { rewrite Hl53 in Hlo. lia. }
        vm_compute. reflexivity.
    - rewrite <-(Z.mul_1_r (Z.abs z * 2 ^ (- e))) at 1.
      rewrite round_half_even_exact by lia.
      unfold Qeq. simpl. rewrite Z.mul_1_r.
      rewrite Z2Pos.id; [done|]. apply Z.pow_pos_nonneg; lia. }
  apply Qc_is_canon. simpl. rewrite !Qred_correct.
  destruct (decide (z < 0)) as [Hneg|Hneg]; rewrite Habs; unfold Qeq; simpl; lia.
Qed.

(** Non-negative integers add up exactly as doubles while the total stays
    within 2^53. *)
Lemma float_sum_exact (es : list GpuEntry) z :
  0 ≤ z → Forall (λ e, 0 ≤ price e) es →
  z + foldr (λ e acc, price e + acc) 0 es ≤ 2 ^ 53 →
  foldl (λ acc e, float_add acc (float_of_Z (price e))) (Qc_of_Z z) es =
  Qc_of_Z (z + foldr (λ e acc, price e + acc) 0 es).
Proof.
  intros Hz Hall. revert z Hz.
  induction Hall as [|e es He Hall IH]; intros z Hz Hle; simpl in *.
  { by rewrite Z.add_0_r. }
  assert (0 ≤ foldr (λ e acc, price e + acc) 0 es) as Hsum.
  { clear -Hall. induction Hall; simpl; lia. }
  unfold float_add at 2, float_of_Z at 2.
  rewrite (round_float_Z (price e)) by lia.
  rewrite <-Z2Qc_inj_add, round_float_Z by lia.
  rewrite IH by lia. f_equal. lia.
Qed.

(** ** Dictionaries *)

Section odict_facts.
Context {K V : Type} `{EqDecision K}.
Implicit Types (d : list (K * V)) (k : K) (v : V).

Lemma dget_dset d k k' v :
  dget k' (dset k v d) = if decide (k = k') then Some v else dget k' d.
Proof.
  induction d as [|[k0 v0] d IH]; simpl.
  - repeat case_decide; congruence.
  - repeat (case_decide; simpl); try congruence.
Qed.

Lemma dget_dalter (f : V → V) d k k' :
  dget k' (dalter f k d) = if decide (k = k') then f <$> dget k d else dget k' d.
Proof.
  induction d as [|[k0 v0] d IH]; simpl.
  - by case_decide.
  - repeat (case_decide; simpl); try congruence.
Qed.

Lemma dget_dpop_ne d k k' : k ≠ k' → dget k' (dpop k d) = dget k' d.
Proof.
  intros Hne. induction d as [|[k0 v0] d IH]; simpl; [done|].
  repeat (case_decide; simpl); try congruence.
Qed.

Lemma dget_Some_In d k v : dget k d = Some v → (k, v) ∈ d.
Proof.
  induction d as [|[k0 v0] d IH]; simpl; [done|].
  case_decide; intros; simplify_eq; [left|right; auto].
Qed.

Lemma dget_None d k : dget k d = None ↔ k ∉ d.*1.
Proof.
  induction d as [|[k0 v0] d IH]; simpl.
  - split; [intros _; apply not_elem_of_nil|done].
  - rewrite not_elem_of_cons. case_decide; [|rewrite IH]; split; try done.
    + by intros [? _].
    + by intros [_ ?].
Qed.

Lemma dget_NoDup_In d k v : NoDup d.*1 → (k, v) ∈ d → dget k d = Some v.
Proof.
  induction d as [|[k0 v0] d IH]; simpl; [by intros _ ?%elem_of_nil|].
  rewrite NoDup_cons. intros [Hni Hnd] [Heq|Hin]%elem_of_cons.
  - simplify_eq. by rewrite decide_True.
  - rewrite decide_False; [by apply IH|].
    intros ->. apply Hni. by apply (list_elem_of_fmap_2 fst _ (k0, v)).
Qed.

Lemma dalter_keys (f : V → V) d k : (dalter f k d).*1 = d.*1.
Proof.
  induction d as [|[k0 v0] d IH]; simpl; [done|].
  case_decide; simpl; by f_equal.
Qed.

Lemma dalter_id (f : V → V) d k :
  (∀ v, dget k d = Some v → f v = v) → dalter f k d = d.
Proof.
  induction d as [|[k0 v0] d IH]; simpl; [done|].
  case_decide; intros Hf.
  - by rewrite Hf.
  - by rewrite IH.
Qed.

Lemma dset_keys_present d k v :
  k ∈ d.*1 → (dset k v d).*1 = d.*1.
Proof.
  induction d as [|[k0 v0] d IH]; simpl; [by intros ?%elem_of_nil|].
  case_decide; simpl; [by subst|].
  intros [?|?]%elem_of_cons; [done|]. f_equal. by apply IH.
Qed.

Lemma dset_keys_absent d k v :
  k ∉ d.*1 → (dset k v d).*1 = d.*1 ++ [k].
Proof.
  induction d as [|[k0 v0] d IH]; simpl; [done|].
  rewrite not_elem_of_cons. intros [? ?].
  rewrite decide_False by done. simpl. f_equal. by apply IH.
Qed.

Lemma dset_NoDup d k v : NoDup d.*1 → NoDup (dset k v d).*1.
Proof.
  intros Hnd. destruct (decide (k ∈ d.*1)).
  - by rewrite dset_keys_present.
  - rewrite dset_keys_absent by done.
    apply NoDup_app. split_and!; [done| |apply NoDup_singleton].
    intros x Hx ->%list_elem_of_singleton. done.
Qed.

Lemma dpop_sublist d k : (dpop k d).*1 `sublist_of` d.*1.
Proof.
  induction d as [|[k0 v0] d IH]; simpl; [done|].
  case_decide; simpl; [by apply sublist_cons|by apply sublist_skip].
Qed.

Lemma dpop_NoDup d k : NoDup d.*1 → NoDup (dpop k d).*1.
Proof. intros Hnd. eapply sublist_NoDup; [done|apply dpop_sublist]. Qed.

Lemma dget_dpop_eq d k : NoDup d.*1 → dget k (dpop k d) = None.
Proof.
  induction d as [|[k0 v0] d IH]; simpl; [done|].
  rewrite NoDup_cons. intros [Hni Hnd]. case_decide; simpl.
  - subst. by apply dget_None.
  - rewrite decide_False by done. by apply IH.
Qed.
End odict_facts.

(** ** Entries reached through the store *)

Lemma get_entry_alter_entry f w s g w' s' g' st :
  get_entry w' s' g' (alter_entry f w s g st) =
  if decide (w = w' ∧ s = s' ∧ g = g')
  then f <$> get_entry w s g st
  else get_entry w' s' g' st.
Proof.
  unfold get_entry, alter_entry. simpl. rewrite dget_dalter.
  destruct (decide (w = w')) as [->|Hw]; simpl.
  - destruct (dget w' (days st)) as [d|] eqn:Hd; simpl.
    + destruct (decide (s = s')) as [->|Hs].
      * rewrite lookup_alter_eq.
        destruct (slots d !! s') as [sl|] eqn:Hsl; simpl.
        -- destruct (decide (g = g')) as [->|Hg].
           ++ rewrite decide_True by done. by rewrite list_lookup_alter_eq.
           ++ rewrite decide_False by naive_solver.
              by rewrite list_lookup_alter_ne.
        -- by case_decide.
      * rewrite lookup_alter_ne by done. rewrite decide_False by naive_solver. done.
    + by case_decide.
  - rewrite decide_False by naive_solver. done.
Qed.

Lemma get_entry_alter_entry_eq f w s g st :
  get_entry w s g (alter_entry f w s g st) = f <$> get_entry w s g st.
Proof. rewrite get_entry_alter_entry. by rewrite decide_True. Qed.

Lemma alter_entry_id f w s g st :
  (∀ e, get_entry w s g st = Some e → f e = e) → alter_entry f w s g st = st.
Proof.
  intros Hf. unfold alter_entry. destruct st as [us ds bl rs th]. unfold set_days.
  simpl in *. f_equal. apply dalter_id. intros d Hd.
  destruct d as [ds0 stt sls fin]. unfold set_slots. simpl. f_equal.
  apply map_eq. intros s'. destruct (decide (s = s')) as [->|].
  - rewrite lookup_alter_eq. destruct (sls !! s') as [sl|] eqn:Hsl; [|done].
    simpl. destruct sl as [gp]. do 2 f_equal. simpl.
    apply list_eq. intros i. destruct (decide (g = i)) as [->|].
    + rewrite list_lookup_alter_eq. destruct (gp !! i) as [e|] eqn:He; [|done].
      simpl. f_equal. apply Hf. unfold get_entry. simpl. rewrite Hd. simpl.
      rewrite Hsl. simpl. done.
    + by rewrite list_lookup_alter_ne.
  - by rewrite lookup_alter_ne.
Qed.

Lemma alter_entry_users f w s g st : users (alter_entry f w s g st) = users st.
Proof. done. Qed.

Lemma alter_entry_day f w s g w' st :
  dget w' (days (alter_entry f w s g st)) =
  (λ d, if decide (w = w')
        then set_slots (alter (λ sl, mkSlot (alter f g (gpu_prices sl))) s (slots d)) d
        else d) <$> dget w' (days st).
Proof.
  unfold alter_entry. simpl. rewrite dget_dalter. case_decide.
  - by subst.
  - by destruct (dget w' (days st)).
Qed.

Lemma alter_entry_status f w s g w' st :
  status <$> dget w' (days (alter_entry f w s g st)) = status <$> dget w' (days st).
Proof.
  rewrite alter_entry_day. destruct (dget w' (days st)); simpl; [|done].
  by case_decide.
Qed.

Lemma get_entry_Some w s g st e :
  get_entry w s g st = Some e ↔
  ∃ d sl, dget w (days st) = Some d ∧ slots d !! s = Some sl ∧
          gpu_prices sl !! g = Some e.
Proof.
  unfold get_entry. split.
  - destruct (dget w (days st)) as [d|]; simpl; [|done].
    destruct (slots d !! s) as [sl|] eqn:?; simpl; [|done]. eauto.
  - intros (d & sl & -> & Hs & He). simpl. rewrite Hs. done.
Qed.

(** ** Release of a single slot *)

Lemma session_user_Some username st u :
  session_user username st = Some u ↔ users st !! username = Some u ∧ enabled u = true.
Proof.
  unfold session_user. destruct (users st !! username) as [u'|]; simpl.
  - destruct (enabled u') eqn:He; split.
    + by intros [= ->].
    + by intros [[= ->] _].
    + done.
    + intros [[= ->] ?]. congruence.
  - split; [done|by intros [? _]].
Qed.

Section release_facts.
Context (strptime : string → option Z).

(** C7 (amended).  A single release succeeds only on the executing day, for
    the entry's winner, and for a slot starting no earlier than the next
    full hour (the boundary itself is accepted, and every request meeting
    the conditions succeeds).  A successful release clears the entry (winner
    null, price 0) and answers the refund [float(price) * 0.5]; the caller's
    balance becomes the float sum of the balance and the refund, that is the
    double nearest to their exact sum.  A slot starting before the boundary
    is rejected, and every rejected request leaves the store as it was. *)
Theorem release_slot_contract username t now st out st' :
  release_slot strptime username t now st = (out, st') →
  let g := Z.to_nat (t_gpu t) in
  let boundary := hour_floor now + HOUR in
  match out with
  | Done refund =>
      ∃ day entry user slot_start,
        dget (t_week t) (days st) = Some day ∧ status day = Executing ∧
        get_entry (t_week t) (t_slot t) g st = Some entry ∧
        winner entry = Some username ∧
        strptime (t_slot t) = Some slot_start ∧ boundary ≤ slot_start ∧
        users st !! username = Some user ∧
        refund = float_mul (float_of_Z (price entry)) HALF ∧
        (∃ entry', get_entry (t_week t) (t_slot t) g st' = Some entry' ∧
                   winner entry' = None ∧ price entry' = 0 ∧
                   bids entry' = bids entry) ∧
        balance <$> users st' !! username =
          Some (float_add (py_float (balance user)) refund)
  | _ => st' = st
  end ∧
  (∀ slot_start, strptime (t_slot t) = Some slot_start →
     slot_start < boundary → ∃ e, out = Failed e) ∧
  (∀ user day entry slot_start,
     session_user username st = Some user →
     0 ≤ t_gpu t < NUM_GPUS →
     dget (t_week t) (days st) = Some day → status day = Executing →
     get_entry (t_week t) (t_slot t) g st = Some entry →
     winner entry = Some username →
     strptime (t_slot t) = Some slot_start → boundary ≤ slot_start →
     out = Done (float_mul (float_of_Z (price entry)) HALF)).
Proof.
  intros Hrun g boundary. subst g boundary. unfold release_slot in Hrun.
  destruct (session_user username st) as [user|] eqn:Hsess.
  2:{ simplify_eq. split_and!; [done| |intros; simplify_eq]. intros s Hs Hlt. eauto. }
  apply session_user_Some in Hsess as [Huser Hen].
  destruct (decide (t_gpu t < 0 ∨ NUM_GPUS ≤ t_gpu t)) as [Hg|Hg].
  { simplify_eq. split_and!; [done|eauto|]. intros. lia. }
  destruct (dget (t_week t) (days st)) as [day|] eqn:Hday.
  2:{ simplify_eq. split_and!; [done|eauto|]. intros; simplify_eq. }
  destruct (decide (status day ≠ Executing)) as [Hst|Hst].
  { simplify_eq. split_and!; [done|eauto|]. intros; simplify_eq. }
  apply dec_stable in Hst.
  destruct (slots day !! t_slot t) as [slot|] eqn:Hslot.
  2:{ simplify_eq. split_and!; [done|eauto|].
      intros ???? _ _ ? _ (?&?&?&?&?)%get_entry_Some; simplify_eq. }
  destruct (gpu_prices slot !! Z.to_nat (t_gpu t)) as [entry|] eqn:Hentry.
  2:{ simplify_eq. split_and!; [done|eauto|].
      intros ???? _ _ ? _ (?&?&?&?&?)%get_entry_Some; simplify_eq. }
  assert (get_entry (t_week t) (t_slot t) (Z.to_nat (t_gpu t)) st = Some entry) as Hget.
  { apply get_entry_Some. eauto. }
  destruct (decide (winner entry ≠ Some username)) as [Hw|Hw].
  { simplify_eq. split_and!; [done|eauto|]. intros; simplify_eq. }
  apply dec_stable in Hw.
  destruct (strptime (t_slot t)) as [slot_datetime|] eqn:Hparse.
  2:{ simplify_eq. split_and!; [done| |]; intros; congruence. }
  destruct (decide (slot_datetime < hour_floor now + HOUR)) as [Hlate|Hlate].
  { simplify_eq. split_and!; [done|eauto|]. intros; simplify_eq. lia. }
  simplify_eq. split_and!.
  - exists day, entry, user, slot_datetime.
    split_and!; try done; [lia| |].
    + exists (clear_entry entry). rewrite get_entry_alter_entry_eq.
      unfold credit, get_entry in *. simpl. rewrite Hday. simpl. rewrite Hslot. simpl.
      rewrite Hentry. done.
    + rewrite alter_entry_users. unfold credit. simpl.
      rewrite lookup_alter_eq, Huser. done.
  - intros s ? Hs. simplify_eq. lia.
  - intros; simplify_eq. done.
Qed.
End release_facts.

(** ** Undo *)

(** C9 (as amended).  An undo whose [previous_winner] is a non-empty
    username different from the caller never succeeds and mutates nothing:
    the whole store (prices, winners, bid lists, every notification queue) is
    returned as it was.  When the request reaches the guard, that is the day
    is open, the entry exists and the caller is its winner, the rejection is
    the conflict error. *)
Theorem undo_third_party_rejected username t w previous_price st :
  w ≠ "" → w ≠ username →
  (undo_bid username t (Some w) previous_price st).2 = st ∧
  (undo_bid username t (Some w) previous_price st).1 ≠ Done () ∧
  (∀ user day entry,
     session_user username st = Some user →
     0 ≤ t_gpu t < NUM_GPUS →
     dget (t_week t) (days st) = Some day → status day = Open →
     get_entry (t_week t) (t_slot t) (Z.to_nat (t_gpu t)) st = Some entry →
     winner entry = Some username →
     (undo_bid username t (Some w) previous_price st).1 = Failed EConflict).
Proof.
  intros Hw Hne. unfold undo_bid.
  destruct (session_user username st) as [user|] eqn:Hsess; [|by split_and!].
  destruct (decide (t_gpu t < 0 ∨ NUM_GPUS ≤ t_gpu t)) as [Hg|Hg].
  { split_and!; [done..|]. intros. lia. }
  destruct (dget (t_week t) (days st)) as [day|] eqn:Hday; [|by split_and!].
  destruct (decide (status day ≠ Open)) as [Hst|Hst].
  { split_and!; [done..|]. intros; simplify_eq. }
  destruct (slots day !! t_slot t) as [slot|] eqn:Hslot.
  2:{ split_and!; [done..|].
      intros ??? _ _ ? _ (?&?&?&?&?)%get_entry_Some; simplify_eq. }
  destruct (gpu_prices slot !! Z.to_nat (t_gpu t)) as [entry|] eqn:Hentry.
  2:{ split_and!; [done..|].
      intros ??? _ _ ? _ (?&?&?&?&?)%get_entry_Some; simplify_eq. }
  destruct (decide (winner entry ≠ Some username)) as [Hown|Hown].
  { split_and!; [done..|].
    intros ??? _ _ ? _ (?&?&?&?&?)%get_entry_Some; simplify_eq. done. }
  assert (truthy (Some w) && bool_decide (Some w ≠ Some username) = true) as ->.
  { simpl. rewrite !bool_decide_eq_true_2; [done|congruence|done]. }
  by split_and!.
Qed.

Lemma undo_third_party_rejected_witness :
  (undo_bid "alice" (mkTarget 1 "1970-01-02T09:00" 3) (Some "bob") 1 demo_state).2
    = demo_state ∧
  (undo_bid "alice" (mkTarget 1 "1970-01-02T09:00" 3) (Some "bob") 1 demo_state).1
    = Failed EConflict.
Proof.
  pose proof (undo_third_party_rejected "alice"
                (mkTarget 1 "1970-01-02T09:00" 3) "bob" 1 demo_state
                ltac:(done) ltac:(done)) as (Hst & _ & Hconf).
  split; [exact Hst|].
  eapply Hconf; [vm_compute; reflexivity|done|vm_compute; reflexivity|done
                |vm_compute; reflexivity|done].
Defined.

(** The guard of the source tests the truthiness of [previous_winner]: an
    empty string is non-null and differs from the caller, and the undo goes
    through, rewriting the entry with the supplied values. *)
Lemma undo_empty_previous_winner_accepted :
  let t := mkTarget 1 "1970-01-02T09:00" 3 in
  let r := undo_bid "alice" t (Some "") 0 demo_state in
  Some "" ≠ None ∧ Some "" ≠ Some "alice" ∧
  r.1 = Done () ∧
  winner <$> get_entry 1 "1970-01-02T09:00" 3 demo_state = Some (Some "alice") ∧
  winner <$> get_entry 1 "1970-01-02T09:00" 3 r.2 = Some (Some "") ∧
  r.2 ≠ demo_state.
Proof.
  assert (winner <$> get_entry 1 "1970-01-02T09:00" 3 demo_state
          = Some (Some "alice")) as H0 by (vm_compute; reflexivity).
  assert (winner <$> get_entry 1 "1970-01-02T09:00" 3
            (undo_bid "alice" (mkTarget 1 "1970-01-02T09:00" 3) (Some "") 0
               demo_state).2 = Some (Some "")) as H1 by (vm_compute; reflexivity).
  split_and!; [done|done|vm_compute; reflexivity|exact H0|exact H1|].
  intros Heq. rewrite Heq in H1. rewrite H0 in H1. discriminate.
Qed.

(** ** Credit committed on open days *)

Lemma insert_by_key_perm {A} (x : Z * A) l : insert_by_key x l ≡ₚ x :: l.
Proof.
  induction l as [|y l IH]; simpl; [done|].
  case_decide; [done|]. rewrite IH. apply Permutation_swap.
Qed.

Lemma sort_by_key_perm {A} (l : list (Z * A)) : sort_by_key l ≡ₚ l.
Proof.
  induction l as [|x l IH]; simpl; [done|].
  rewrite insert_by_key_perm. by rewrite IH.
Qed.

Lemma sum_foldr_perm {A} (f : A → Z) (l l' : list A) :
  l ≡ₚ l' → foldr (λ x acc, f x + acc) 0 l = foldr (λ x acc, f x + acc) 0 l'.
Proof. induction 1; simpl; lia. Qed.

Lemma committed_for_user_open_commit username st :
  committed_for_user username st = open_commit username (days st).
Proof.
  unfold committed_for_user, open_commit, find_days_by_status.
  apply (sum_foldr_perm (λ kd, day_commit username kd.2)), sort_by_key_perm.
Qed.

Lemma slot_commit_alter username (f : GpuEntry → GpuEntry) g sl e :
  gpu_prices sl !! g = Some e →
  slot_commit username (mkSlot (alter f g (gpu_prices sl))) =
  slot_commit username sl - entry_commit username e + entry_commit username (f e).
Proof.
  destruct sl as [es]. unfold slot_commit. simpl. revert g.
  induction es as [|e0 es IH]; intros [|g] He; simplify_eq/=; [lia|].
  rewrite (IH g He). lia.
Qed.

Lemma day_commit_alter username (f : Slot → Slot) s d sl :
  slots d !! s = Some sl →
  day_commit username (set_slots (alter f s (slots d)) d) =
  day_commit username d - slot_commit username sl + slot_commit username (f sl).
Proof.
  intros Hs. unfold day_commit. simpl.
  assert (alter f s (slots d) = <[s := f sl]> (delete s (slots d))) as ->.
  { apply map_eq. intros s'. destruct (decide (s = s')) as [->|].
    - by rewrite lookup_alter_eq, lookup_insert_eq, Hs.
    - by rewrite lookup_alter_ne, lookup_insert_ne, lookup_delete_ne. }
  rewrite (sum_foldr_perm (λ ks, slot_commit username ks.2) _ _
             (map_to_list_insert _ _ _ (lookup_delete_eq _ _))).
  rewrite <-(insert_delete_id (slots d) s sl Hs) at 2.
  rewrite (sum_foldr_perm (λ ks, slot_commit username ks.2) _ _
             (map_to_list_insert _ _ _ (lookup_delete_eq _ _))).
  simpl. lia.
Qed.

Lemma open_commit_dalter username (f : Day → Day) w ds d :
  dget w ds = Some d → status d = Open → status (f d) = Open →
  open_commit username (dalter f w ds) =
  open_commit username ds - day_commit username d + day_commit username (f d).
Proof.
  unfold open_commit. intros Hget Hst Hst'.
  induction ds as [|[k0 d0] ds IH]; simpl in *; [done|].
  destruct (decide (w = k0)) as [->|Hne].
  - simplify_eq. rewrite !filter_cons. simpl.
    rewrite !decide_True by done. simpl. lia.
  - rewrite !filter_cons. simpl. case_decide; simpl; rewrite IH by done; lia.
Qed.

Lemma committed_alter_entry username f w s g st d e :
  dget w (days st) = Some d → status d = Open →
  get_entry w s g st = Some e →
  committed_for_user username (alter_entry f w s g st) =
  committed_for_user username st
    - entry_commit username e + entry_commit username (f e).
Proof.
  intros Hd Hst (d' & sl & Hd' & Hsl & He)%get_entry_Some. simplify_eq.
  rewrite !committed_for_user_open_commit. unfold alter_entry. simpl.
  rewrite (open_commit_dalter _ _ _ _ d) by done.
  rewrite (day_commit_alter _ _ _ _ sl) by done.
  rewrite (slot_commit_alter _ _ _ _ e) by done. lia.
Qed.

Lemma notify_balance sid us names n :
  balance <$> foldl (notify sid) us names !! n = balance <$> us !! n.
Proof.
  revert us. induction names as [|x names IH]; intros us; simpl; [done|].
  rewrite IH. unfold notify. destruct (us !! x) as [o|] eqn:Hx; [|done].
  case_decide; [done|]. destruct (decide (x = n)) as [->|].
  - by rewrite lookup_insert_eq, Hx.
  - by rewrite lookup_insert_ne.
Qed.

Lemma commit_bid_days username t np ts st :
  days (truncate_log (commit_bid username t np ts st)) =
  days (alter_entry (take_bid username np ts) (t_week t) (t_slot t)
          (Z.to_nat (t_gpu t)) st).
Proof. unfold truncate_log. by case_decide. Qed.

Lemma commit_bid_balance username t np ts st n :
  balance <$> users (truncate_log (commit_bid username t np ts st)) !! n =
  balance <$> users st !! n.
Proof.
  unfold truncate_log. case_decide; simpl; apply notify_balance.
Qed.

Lemma committed_for_user_days username st st' :
  days st = days st' → committed_for_user username st = committed_for_user username st'.
Proof.
  intros Hd. unfold committed_for_user, find_days_by_status. by rewrite Hd.
Qed.

Lemma py_int_floor (q : Qc) : (0 ≤ q)%Qc → py_int q = Qfloor (this q).
Proof.
  unfold Qcle, Qle, py_int. destruct q as [[n d] Hc]. simpl.
  intros Hn. apply Z.quot_div_nonneg; lia.
Qed.

(** ** Single bids *)

Lemma place_bids_snoc username reqs t ts st0 st' :
  place_bids username (reqs ++ [(t, ts)]) st0 = Some st' →
  ∃ st r, place_bids username reqs st0 = Some st ∧
          place_bid username t ts st = (Done r, st').
Proof.
  revert st0. induction reqs as [|[t0 ts0] reqs IH]; intros st0; simpl.
  - destruct (place_bid username t ts st0) as [[r| |] st1] eqn:Hb; try done.
    intros [= ->]. eauto.
  - destruct (place_bid username t0 ts0 st0) as [[r| |] st1]; try done. apply IH.
Qed.

Lemma place_bid_Done username t ts st r st' :
  place_bid username t ts st = (Done r, st') →
  ∃ user day slot entry,
    session_user username st = Some user ∧
    0 ≤ t_gpu t < NUM_GPUS ∧
    dget (t_week t) (days st) = Some day ∧ status day = Open ∧
    slots day !! t_slot t = Some slot ∧
    gpu_prices slot !! Z.to_nat (t_gpu t) = Some entry ∧
    is_reserved (t_week t) (t_slot t) (t_gpu t) st = false ∧
    committed_for_user username st - entry_commit username entry + (price entry + 1)
      ≤ py_int (balance user) ∧
    r = (price entry + 1, username) ∧
    st' = truncate_log (commit_bid username t (price entry + 1) ts st).
Proof.
  unfold place_bid. intros Hrun.
  destruct (session_user username st) as [user|] eqn:Hu; [|done].
  destruct (decide (t_gpu t < 0 ∨ NUM_GPUS ≤ t_gpu t)); [done|].
  destruct (dget (t_week t) (days st)) as [day|] eqn:Hd; [|done].
  destruct (decide (status day ≠ Open)) as [|Hst%dec_stable]; [done|].
  destruct (slots day !! t_slot t) as [slot|] eqn:Hs; [|done].
  destruct (gpu_prices slot !! Z.to_nat (t_gpu t)) as [entry|] eqn:He; [|done].
  destruct (is_reserved (t_week t) (t_slot t) (t_gpu t) st) eqn:Hr; [done|].
  destruct (decide (_ > _)) as [|Hcredit]; [done|]. simplify_eq.
  exists user, day, slot, entry. split_and!; try done; try lia.
  unfold entry_commit. destruct (decide (winner entry = Some username)); lia.
Qed.

(** C1.  Take any run of single bids by [username] in which every bid is
    accepted, and look at its last bid.  It was accepted only with the day
    present and open, the slot present, the gpu index in [0,8), the entry
    outside the reserved set of the policy, and
    committed - (price if the caller already leads) + (price + 1) at most
    floor(balance), where committed sums the prices of the caller's entries
    over all open days.  The bid moves the committed credit to exactly that
    amount and leaves the balance alone, so after the run
    committed <= floor(balance).  (Balances are non-negative reals.) *)
Theorem place_bid_credit_invariant username reqs t ts st0 st' user' :
  place_bids username (reqs ++ [(t, ts)]) st0 = Some st' →
  users st' !! username = Some user' →
  (0 ≤ balance user')%Qc →
  ∃ st user day slot entry,
    place_bids username reqs st0 = Some st ∧
    users st !! username = Some user ∧ balance user = balance user' ∧
    dget (t_week t) (days st) = Some day ∧ status day = Open ∧
    slots day !! t_slot t = Some slot ∧
    0 ≤ t_gpu t < 8 ∧
    gpu_prices slot !! Z.to_nat (t_gpu t) = Some entry ∧
    (reserved_tag (t_slot t) (t_gpu t)
       ∉ default [] (reserved_slots st !! t_week t)) ∧
    committed_for_user username st
      - (if decide (winner entry = Some username) then price entry else 0)
      + (price entry + 1) ≤ Qfloor (this (balance user)) ∧
    committed_for_user username st' =
      committed_for_user username st
      - (if decide (winner entry = Some username) then price entry else 0)
      + (price entry + 1) ∧
    committed_for_user username st' ≤ Qfloor (this (balance user')).
Proof.
  intros (st & r & Hrun & Hbid)%place_bids_snoc Huser' Hnonneg.
  apply place_bid_Done in Hbid
    as (user & day & slot & entry & [Huser _]%session_user_Some & Hg & Hday & Hst
        & Hslot & Hentry & Hres & Hcredit & -> & ->).
  assert (balance user = balance user') as Hbal.
  { pose proof (commit_bid_balance username t (price entry + 1) ts st username) as Hb.
    rewrite Huser', Huser in Hb. by injection Hb. }
  assert (committed_for_user username
            (truncate_log (commit_bid username t (price entry + 1) ts st)) =
          committed_for_user username st - entry_commit username entry
            + (price entry + 1)) as Hcommitted.
  { rewrite (committed_for_user_days _ _ _ (commit_bid_days _ _ _ _ _)).
    rewrite (committed_alter_entry _ _ _ _ _ _ day entry); try done.
    - unfold entry_commit at 2. simpl. rewrite decide_True by done. done.
    - apply get_entry_Some. eauto. }
  rewrite <-Hbal in Hnonneg. rewrite py_int_floor in Hcredit by done.
  exists st, user, day, slot, entry. unfold entry_commit, NUM_GPUS in *.
  split_and!; try done; try lia.
  - unfold is_reserved in Hres. by apply bool_decide_eq_false in Hres.
  - rewrite Hcommitted, <-Hbal. done.
Qed.

Lemma place_bid_credit_invariant_witness :
  let t := mkTarget 1 "1970-01-02T09:00" 3 in
  let st' := default demo_state (place_bids "bob" ([(t, 7)] ++ [(t, 8)]) demo_state) in
  place_bids "bob" ([(t, 7)] ++ [(t, 8)]) demo_state = Some st' ∧
  committed_for_user "bob" st' = 4 ∧
  committed_for_user "bob" st' ≤ Qfloor (this (balance (demo_user 5))).
Proof.
  intros t st'.
  destruct (place_bid_credit_invariant "bob" [(t, 7)] t 8 demo_state st' (demo_user 5))
    as (st & user & day & slot & entry & _ & _ & _ & _ & _ & _ & _ & _ & _ & _ & _ & Hle).
  - vm_compute. reflexivity.
  - vm_compute. reflexivity.
  - vm_compute. discriminate.
  - split_and!; [vm_compute; reflexivity|vm_compute; reflexivity|exact Hle].
Defined.

Lemma release_slot_contract_witness :
  let t := mkTarget 0 "1970-01-01T10:00" 0 in
  let r := release_slot jan1970_strptime "alice" t (9 * HOUR + 59) demo_state in
  r.1 = Done (float_mul (float_of_Z 4) HALF) ∧
  this (float_mul (float_of_Z 4) HALF) = 2 # 1 ∧
  jan1970_strptime "1970-01-01T10:00" = Some (hour_floor (9 * HOUR + 59) + HOUR).
Proof.
  intros t r.
  pose proof (release_slot_contract jan1970_strptime "alice" t (9 * HOUR + 59)
                demo_state r.1 r.2 (surjective_pairing _)) as (_ & _ & Hok).
  split; [|split; vm_compute; reflexivity].
  eapply (Hok (demo_user 10)
              (demo_won "1970-01-01T10:00" 0 "alice" 4
                 (demo_day 0 Executing ["1970-01-01T03:00"; "1970-01-01T10:00"]))
              (mkEntry 0 4 (Some "alice") [mkBid "alice" 4 0] None) 36000);
    try (vm_compute; reflexivity); try done.
Defined.

(** The balance does not grow by exactly half the price.  With a balance
    of 0.34 (the refund of one bulk release to an empty account) and the
    entry at price 4, the refund is 2.0 and the new balance is the double
    0.34 + 2.0, which is not the sum of the two: the exact sum is not a
    double. *)
Lemma release_slot_rounds_the_balance :
  let t := mkTarget 0 "1970-01-01T10:00" 0 in
  let r := release_slot jan1970_strptime "alice" t (9 * HOUR + 59)
             demo_float_state in
  (this ∘ balance) <$> users demo_float_state !! "alice"
    = Some (6124895493223875 # 18014398509481984) ∧
  this <$> done_value r.1 = Some (2 # 1) ∧
  (this ∘ balance) <$> users r.2 !! "alice"
    = Some (658651445502935 # 281474976710656) ∧
  balance <$> users r.2 !! "alice" ≠
    (λ u, (balance u + Qc_of_Z 4 * HALF)%Qc) <$> users demo_float_state !! "alice".
Proof.
  split_and!; [vm_compute; reflexivity..|].
  intros H. apply (f_equal (fmap this)) in H. vm_compute in H. discriminate H.
Qed.

(** ** Invariant (I3): a positive price exactly on entries with a winner *)

Lemma store_ok_days st st' : days st = days st' → store_ok st → store_ok st'.
Proof. unfold store_ok. by intros ->. Qed.

Lemma day_ok_alter (f : GpuEntry → GpuEntry) s g d :
  (∀ e, entry_ok (f e)) → day_ok d →
  day_ok (set_slots (alter (λ sl, mkSlot (alter f g (gpu_prices sl))) s (slots d)) d).
Proof.
  intros Hf Hd s' sl'. simpl. destruct (decide (s = s')) as [->|Hne].
  - rewrite lookup_alter_eq. destruct (slots d !! s') as [sl|] eqn:Hsl; [|done].
    intros [= <-]. simpl. specialize (Hd _ _ Hsl).
    apply Forall_lookup. intros i e. destruct (decide (g = i)) as [->|].
    + rewrite list_lookup_alter_eq. destruct (gpu_prices sl !! i); [|done].
      intros [= <-]. apply Hf.
    + rewrite list_lookup_alter_ne by done. intros He.
      by eapply Forall_lookup_1.
  - rewrite lookup_alter_ne by done. apply Hd.
Qed.

Lemma Forall_dalter {V} (P : Z * V → Prop) (f : V → V) k ds :
  (∀ v, P (k, v) → P (k, f v)) → Forall P ds → Forall P (dalter f k ds).
Proof.
  intros Hf. induction 1 as [|[k0 v0] ds Hx Hds IH]; simpl; [done|].
  case_decide; constructor; subst; auto.
Qed.

Lemma Forall_dset {V} (P : Z * V → Prop) k v ds :
  P (k, v) → Forall P ds → Forall P (dset k v ds).
Proof.
  intros Hv. induction 1 as [|[k0 v0] ds Hx Hds IH]; simpl.
  - by constructor.
  - case_decide; constructor; auto.
Qed.

Lemma Forall_dpop {V} (P : Z * V → Prop) k ds :
  Forall P ds → Forall P (dpop k ds).
Proof.
  induction 1 as [|[k0 v0] ds Hx Hds IH]; simpl; [done|].
  case_decide; [done|by constructor].
Qed.

Lemma store_ok_alter_entry f w s g st :
  (∀ e, entry_ok (f e)) → store_ok st → store_ok (alter_entry f w s g st).
Proof.
  intros Hf Hst. unfold store_ok, alter_entry. simpl.
  apply Forall_dalter; [|done]. intros d. simpl. by apply day_ok_alter.
Qed.

Lemma store_ok_entry st w s g e :
  store_ok st → get_entry w s g st = Some e → entry_ok e.
Proof.
  intros Hst (d & sl & Hd & Hsl & He)%get_entry_Some.
  apply dget_Some_In in Hd. unfold store_ok in Hst.
  rewrite Forall_forall in Hst. specialize (Hst _ Hd _ _ Hsl).
  by eapply Forall_lookup_1.
Qed.

Lemma entry_ok_price e : entry_ok e → 0 ≤ price e.
Proof.
  intros [Hiff Hnone]. destruct (winner e) as [w|].
  - assert (1 ≤ price e) by (by apply Hiff). lia.
  - rewrite Hnone by done. lia.
Qed.

Lemma entry_ok_take_bid username np ts e : 1 ≤ np → entry_ok (take_bid username np ts e).
Proof. intros Hnp. split; simpl; [split; [done|by intros _]|done]. Qed.

Lemma entry_ok_clear e : entry_ok (clear_entry e).
Proof. split; simpl; [split; [lia|done]|done]. Qed.

Lemma entry_ok_fresh g : entry_ok (fresh_entry g).
Proof. split; simpl; [split; [lia|done]|done]. Qed.

Lemma entry_ok_undo username pw pp e :
  (pw = None ∧ pp = 0) ∨ (pw ≠ None ∧ 1 ≤ pp) →
  entry_ok (pop_own_bid username (set_price pp (set_winner pw e))).
Proof.
  intros Hc. unfold pop_own_bid. simpl.
  assert (entry_ok (set_price pp (set_winner pw e))) as Hok.
  { split; simpl; destruct Hc as [[-> ->]|[? ?]]; try done; split; try done; lia. }
  destruct (last (bids e)) as [b|]; [|done]. by case_decide.
Qed.

Lemma store_ok_commit_bid username t np ts st :
  1 ≤ np → store_ok st → store_ok (commit_bid username t np ts st).
Proof.
  intros Hnp Hst. unfold commit_bid.
  eapply store_ok_days; [|apply (store_ok_alter_entry
    (take_bid username np ts) (t_week t) (t_slot t) (Z.to_nat (t_gpu t)) st);
    [intros e; by apply entry_ok_take_bid|done]].
  done.
Qed.

Lemma store_ok_truncate_log st : store_ok st → store_ok (truncate_log st).
Proof. unfold truncate_log. by case_decide. Qed.

Lemma store_ok_place_bid username t ts st :
  store_ok st → store_ok (place_bid username t ts st).2.
Proof.
  intros Hst. destruct (place_bid username t ts st) as [[r| |] st'] eqn:Hrun; simpl.
  - apply place_bid_Done in Hrun
      as (user & day & slot & entry & _ & _ & Hd & _ & Hs & He & _ & _ & _ & ->).
    apply store_ok_truncate_log, store_ok_commit_bid; [|done].
    assert (entry_ok entry) as Hok%entry_ok_price; [|lia].
    eapply store_ok_entry; [done|]. apply get_entry_Some. eauto.
  - unfold place_bid in Hrun. repeat case_match; by simplify_eq.
  - unfold place_bid in Hrun. repeat case_match; by simplify_eq.
Qed.

Lemma validate_bids_new_price username st l vs :
  store_ok st → validate_bids username st l = Done vs →
  Forall (λ v, 1 ≤ v_new_price v) vs.
Proof.
  intros Hst. revert vs. induction l as [|t l IH]; simpl; intros vs.
  - by intros [= <-].
  - destruct (dget (t_week t) (days st)) as [day|] eqn:Hd; [|done].
    case_decide; [done|].
    destruct (slots day !! t_slot t) as [slot|] eqn:Hs; [|done].
    destruct (gpu_prices slot !! Z.to_nat (t_gpu t)) as [entry|] eqn:He; [|done].
    destruct (is_reserved _ _ _ _); [done|].
    destruct (validate_bids username st l) as [vs'| |]; [|done..].
    intros [= <-]. constructor; [|by apply IH]. simpl.
    assert (entry_ok entry) as Hok%entry_ok_price; [|lia].
    eapply store_ok_entry; [done|]. apply get_entry_Some. eauto.
Qed.

Lemma store_ok_execute_bids username ts vs st :
  Forall (λ v, 1 ≤ v_new_price v) vs → store_ok st →
  store_ok (execute_bids username ts vs st).
Proof.
  unfold execute_bids. intros Hvs. revert st.
  induction Hvs as [|v vs Hv Hvs IH]; intros st Hst; simpl; [done|].
  apply IH. by apply store_ok_commit_bid.
Qed.

Lemma store_ok_place_bulk_bids int_of_str username bids ts st :
  store_ok st → store_ok (place_bulk_bids int_of_str username bids ts st).2.
Proof.
  intros Hst. unfold place_bulk_bids.
  destruct (session_user username st); [|done].
  destruct bids as [|b bids]; [done|].
  destruct (comparable (b :: bids)); [|done].
  destruct (convert_bids _ _) as [targets| |]; [|done..].
  destruct (validate_bids _ _ _) as [vs| |] eqn:Hv; [|done..].
  case_decide; [done|]. simpl.
  apply store_ok_truncate_log, store_ok_execute_bids; [|done].
  by eapply validate_bids_new_price.
Qed.

Lemma store_ok_undo_bid username t pw pp st :
  (pw = None ∧ pp = 0) ∨ (pw ≠ None ∧ 1 ≤ pp) →
  store_ok st → store_ok (undo_bid username t pw pp st).2.
Proof.
  intros Hc Hst. unfold undo_bid. repeat case_match; simpl; try done.
  apply store_ok_alter_entry; [|done]. intros e. by apply entry_ok_undo.
Qed.

Lemma fresh_slots_lookup slot_id k s sl :
  fresh_slots slot_id k !! s = Some sl → sl = fresh_slot.
Proof.
  unfold fresh_slots.
  assert (∀ l (m : gmap string Slot),
            (∀ s sl, m !! s = Some sl → sl = fresh_slot) →
            ∀ s sl, foldl (λ m hour, <[slot_id k hour := fresh_slot]> m) m l !! s
                    = Some sl → sl = fresh_slot) as Hgen.
  { induction l as [|h l IH]; intros m Hm; simpl; [done|].
    apply IH. intros s' sl'. destruct (decide (slot_id k h = s')) as [->|].
    - rewrite lookup_insert_eq. by intros [= <-].
    - rewrite lookup_insert_ne by done. apply Hm. }
  apply Hgen. intros s' sl'. by rewrite lookup_empty.
Qed.

Lemma day_ok_fresh slot_id k key s fin :
  day_ok (mkDay key s (fresh_slots slot_id k) fin).
Proof.
  intros s' sl ->%fresh_slots_lookup. unfold fresh_slot, gpu_prices.
  apply Forall_fmap, Forall_forall. intros g _. apply entry_ok_fresh.
Qed.

Lemma store_ok_ensure_day_exists slot_id start s st :
  store_ok st → store_ok (ensure_day_exists slot_id start s st).1.
Proof.
  intros Hst. unfold ensure_day_exists.
  destruct (dget (format_day start) (days st)) as [existing|] eqn:Hd; simpl.
  - apply Forall_dset; [|done]. simpl.
    assert (day_ok existing) as Hok.
    { apply dget_Some_In in Hd. unfold store_ok in Hst.
      rewrite Forall_forall in Hst. apply (Hst _ Hd). }
    by destruct (has_data existing).
  - apply Forall_dset; [|done]. apply day_ok_fresh.
Qed.

Lemma store_ok_release_slot strptime username t now st :
  store_ok st → store_ok (release_slot strptime username t now st).2.
Proof.
  intros Hst. unfold release_slot. repeat case_match; simpl; try done.
  apply store_ok_alter_entry; [apply entry_ok_clear|done].
Qed.

Lemma store_ok_release_loop strptime username next_hour l st n :
  store_ok st →
  store_ok (release_loop_from strptime username next_hour l (st, n)).1.
Proof.
  unfold release_loop_from.
  revert st n. induction l as [|t l IH]; intros st n Hst; simpl; [done|].
  destruct (release_one strptime username next_hour t st) as [st'|] eqn:Hr.
  - apply IH. unfold release_one in Hr. repeat case_match; simplify_eq.
    apply store_ok_alter_entry; [apply entry_ok_clear|done].
  - by apply IH.
Qed.

Lemma store_ok_release_slots_bulk strptime username ts now st :
  store_ok st →
  store_ok (from_option snd st (release_slots_bulk strptime username ts now st)).
Proof.
  intros Hst. unfold release_slots_bulk.
  destruct (session_user username st); [|done].
  destruct ts as [|t ts]; [done|]. case_decide; [done|].
  case_decide; [|done].
  destruct (release_loop _ _ _ _ _) as [st1 n] eqn:Hl. simpl.
  eapply (store_ok_days st1); [done|].
  pose proof (store_ok_release_loop strptime username (hour_floor now + HOUR)
                (t :: ts) st 0%nat Hst) as Hok.
  unfold release_loop in Hl. by rewrite Hl in Hok.
Qed.

Lemma store_ok_advance_day_cycle slot_id now st :
  store_ok st → store_ok (advance_day_cycle slot_id now st).2.
Proof.
  intros Hst. unfold advance_day_cycle.
  destruct (find_days_by_status Open st) as [|[next_day_key next_day_data] ?]; [done|].
  set (st1k := match find_day_by_status Executing st with
               | Some (k, _) => (st, k)
               | None => _ end).
  assert (store_ok st1k.1) as Hst1.
  { unfold st1k. destruct (find_day_by_status Executing st) as [[k ?]|]; [done|].
    by apply store_ok_ensure_day_exists. }
  destruct st1k as [st1 current_key]. simpl in Hst1.
  match goal with
  | |- store_ok (let '(st7, _) := ensure_day_exists ?sid ?start ?s ?st6 in _).2 =>
      pose proof (store_ok_ensure_day_exists sid start s st6) as Hens;
      destruct (ensure_day_exists sid start s st6) as [st7 d7]
  end.
  simpl in *. apply Hens. unfold store_ok. simpl.
  apply Forall_dpop, Forall_dalter; [by intros []|].
  apply Forall_dalter; [|done]. intros d Hd. unfold finalize_day.
  by destruct (finalized_at (set_status Final d)).
Qed.

(** C5 (as amended).  Start from a store in which every entry satisfies
    price >= 1 iff winner /= null, and winner = null implies price = 0.
    After any sequence of bids, bulk bids, releases, bulk releases and day
    advancements, and of undos whose restored pair is itself consistent
    (null with 0, or a winner with a price of at least 1), every entry still
    satisfies it. *)
Theorem price_winner_invariant strptime slot_id int_of_str ops st :
  store_ok st → Forall undo_consistent ops →
  store_ok (foldl (run_op strptime slot_id int_of_str) st ops).
Proof.
  intros Hst Hops. revert st Hst.
  induction Hops as [|op ops Hop Hops IH]; intros st Hst; simpl; [done|].
  apply IH. destruct op; simpl in *.
  - by apply store_ok_place_bid.
  - by apply store_ok_place_bulk_bids.
  - by apply store_ok_undo_bid.
  - by apply store_ok_release_slot.
  - by apply store_ok_release_slots_bulk.
  - by apply store_ok_advance_day_cycle.
Qed.

Lemma day_ok_demo_day key s slot_keys : day_ok (demo_day key s slot_keys).
Proof.
  unfold demo_day. intros sk sl. simpl.
  induction slot_keys as [|k ks IH]; simpl; [by rewrite lookup_empty|].
  destruct (decide (k = sk)) as [->|].
  - rewrite lookup_insert_eq. intros [= <-]. unfold fresh_slot, gpu_prices.
    apply Forall_fmap, Forall_forall. intros g _. apply entry_ok_fresh.
  - by rewrite lookup_insert_ne.
Qed.

Lemma store_ok_demo_fresh_state : store_ok demo_fresh_state.
Proof. unfold store_ok. simpl. repeat constructor; apply day_ok_demo_day. Qed.

Lemma price_winner_invariant_witness :
  let t := mkTarget 1 "1970-01-02T09:00" 3 in
  store_ok (foldl (run_op jan1970_strptime jan1970_slot_id digits_int_of_str) demo_fresh_state
              [OpBid "alice" t 1; OpBid "bob" t 2; OpUndo "alice" t None 0;
               OpAdvance DAY; OpRelease "bob" t (DAY + 60)]).
Proof.
  intros t. apply price_winner_invariant.
  - unfold store_ok. simpl. repeat constructor; apply day_ok_demo_day.
  - repeat constructor.
Defined.

(** The undo path writes the client-supplied pair back without checking it:
    after one accepted bid, an undo that restores "no winner" together with
    price 5 leaves an entry with a null winner and a positive price. *)
Lemma undo_breaks_price_winner_invariant :
  let t := mkTarget 1 "1970-01-02T09:00" 3 in
  let st' := foldl (run_op jan1970_strptime jan1970_slot_id digits_int_of_str) demo_fresh_state
               [OpBid "alice" t 1; OpUndo "alice" t None 5] in
  store_ok demo_fresh_state ∧
  (∃ e, get_entry 1 "1970-01-02T09:00" 3 st' = Some e ∧
        winner e = None ∧ price e = 5) ∧
  ¬ store_ok st'.
Proof.
  intros t st'.
  assert (get_entry 1 "1970-01-02T09:00" 3 st'
          = Some (mkEntry 3 5 None [] None)) as He by (vm_compute; reflexivity).
  split_and!.
  - apply store_ok_demo_fresh_state.
  - exists (mkEntry 3 5 None [] None). split; [exact He|split; reflexivity].
  - intros Hok. destruct (store_ok_entry _ _ _ _ _ Hok He) as [_ Hnone].
    specialize (Hnone eq_refl). simpl in Hnone. lia.
Qed.

(** ** Bulk release *)

Section bulk_release_facts.
Context (strptime : string → option Z).




End bulk_release_facts.





(** A request naming the same entry twice blocks on the lock it already
    holds: no result, whatever the entry. *)
Lemma bulk_release_repeated_item_never_returns :
  let t := mkTarget 0 "1970-01-01T10:00" 0 in
  release_slots_bulk jan1970_strptime "alice" [t; t] (8 * HOUR) demo_state = None.
Proof. vm_compute. reflexivity. Qed.

(** One to three released entries at balance 100: the stored balance is a
    double, and it is not the real number 100 + n x 34/100. *)
Lemma bulk_release_refund_is_rounded :
  ∀ n : nat, (0 < n ≤ 3)%nat →
  float_add (py_float (Qc_of_Z 100))
    (float_mul (float_of_Z (Z.of_nat n)) RELEASE_REFUND_CREDITS)
  ≠ (Qc_of_Z 100 + Qc_of_Z (Z.of_nat n) * Q2Qc (34 # 100))%Qc.
Proof.
  intros n Hn H. apply (f_equal this) in H.
  assert (n = 1 ∨ n = 2 ∨ n = 3)%nat as [->|[->| ->]] by lia;
    vm_compute in H; discriminate.
Qed.

(** ** Bulk bids *)





















(** ** Telemetry finalization *)

Section finalize_facts.
Context (strptime : string → option Z).



Lemma finalize_gpu_get_entry w s acc gc w' s' g' :
  get_entry w' s' g' (finalize_gpu w s acc gc).1 =
  match get_entry w' s' g' acc.1 with
  | Some e =>
      if decide (w = w' ∧ s = s' ∧ gc.1 = g')
      then match actual_user e with
           | Some _ => Some e
           | None => Some (set_actual_user (most_frequent gc.2) e)
           end
      else Some e
  | None => None
  end.
Proof.
  unfold finalize_gpu.
  destruct (get_entry w s gc.1 acc.1) as [e0|] eqn:He0.
  - destruct (actual_user e0) eqn:Ha; simpl.
    + destruct (get_entry w' s' g' acc.1) as [e|] eqn:He; [|done].
      case_decide as Hloc; [|done]. destruct Hloc as (<- & <- & <-).
      simplify_eq. by rewrite Ha.
    + rewrite get_entry_alter_entry. case_decide as Hloc.
      * destruct Hloc as (<- & <- & <-). rewrite He0. simpl. by rewrite Ha.
      * by destruct (get_entry w' s' g' acc.1).
  - destruct (get_entry w' s' g' acc.1) as [e|] eqn:He; [|done].
    case_decide as Hloc; [|done]. destruct Hloc as (<- & <- & <-). congruence.
Qed.

Lemma finalize_gpu_status w s acc gc w' :
  status <$> dget w' (days (finalize_gpu w s acc gc).1) =
  status <$> dget w' (days acc.1).
Proof.
  unfold finalize_gpu. destruct (get_entry w s gc.1 acc.1) as [e|]; [|done].
  destruct (actual_user e); [done|]. simpl. apply alter_entry_status.
Qed.

Lemma day_statuses_dalter (f : Day → Day) k st :
  (∀ d, status (f d) = status d) →
  day_statuses (set_days (dalter f k (days st)) st) = day_statuses st.
Proof.
  intros Hf. unfold day_statuses. simpl.
  induction (days st) as [|[k0 d0] ds IH]; simpl; [done|].
  case_decide; simpl; [by rewrite Hf|]. f_equal. exact IH.
Qed.

Lemma day_statuses_alter_entry f w s g st :
  day_statuses (alter_entry f w s g st) = day_statuses st.
Proof. unfold alter_entry. by apply day_statuses_dalter. Qed.

Lemma finalize_gpu_statuses w s acc gc :
  day_statuses (finalize_gpu w s acc gc).1 = day_statuses acc.1.
Proof.
  unfold finalize_gpu. destruct (get_entry w s gc.1 acc.1) as [e|]; [|done].
  destruct (actual_user e); [done|]. apply day_statuses_alter_entry.
Qed.

Lemma finalize_inv_refl J st n : finalize_inv J st (st, n).
Proof.
  split_and!; try done. intros w s g. simpl.
  destruct (get_entry w s g st) as [e|]; [|done]. exists e. split; [done|by left].
Qed.

Lemma finalize_gpu_inv J st w s acc gc :
  J w s gc.1 gc.2 → finalize_inv J st acc → finalize_inv J st (finalize_gpu w s acc gc).
Proof.
  intros HJ (Hsk & Hus & Hlog & Hst & Hent). split_and!.
  - by rewrite finalize_gpu_statuses.
  - rewrite <-Hus. unfold finalize_gpu. by repeat case_match.
  - rewrite <-Hlog. unfold finalize_gpu. by repeat case_match.
  - intros w'. rewrite finalize_gpu_status. apply Hst.
  - intros w' s' g'. rewrite finalize_gpu_get_entry. specialize (Hent w' s' g').
    destruct (get_entry w' s' g' st) as [e|].
    + destruct Hent as (e' & -> & Hstep).
      case_decide as Hloc; [|by eauto].
      destruct (actual_user e') eqn:Ha; [by eauto|].
      destruct Hloc as (<- & <- & <-).
      destruct Hstep as [->|(_ & counts & _ & ->)]; [|done].
      eexists. split; [done|]. right. split; [done|]. eauto.
    + by rewrite Hent.
Qed.

Lemma finalize_gpus_inv J st w s gpus acc :
  (∀ gc, gc ∈ gpus → J w s gc.1 gc.2) →
  finalize_inv J st acc → finalize_inv J st (foldl (finalize_gpu w s) acc gpus).
Proof.
  revert acc. induction gpus as [|gc gpus IH]; intros acc HJ Hinv; simpl; [done|].
  apply IH.
  - intros gc' Hin. apply HJ. by right.
  - apply finalize_gpu_inv; [|done]. apply HJ. left.
Qed.

Section finalize_loops.
Context (now : Z) (st : State) (trk : Tracking).

Lemma finalize_slot_inv w day dslots sg acc :
  (w, dslots) ∈ trk → sg ∈ dslots →
  (status day = Executing ∨ status day = Final) →
  status <$> dget w (days st) = Some (status day) →
  finalize_inv (finalizable strptime now st trk) st acc →
  finalize_inv (finalizable strptime now st trk) st
    (finalize_slot strptime (hour_floor now) w day acc sg).
Proof.
  intros Hw Hs Hstat Hday Hinv. unfold finalize_slot.
  destruct (strptime sg.1) as [dt|] eqn:Hparse; [|done].
  case_decide as Hend; [done|].
  destruct (slots day !! sg.1); [|done].
  apply finalize_gpus_inv; [|done]. intros [g counts] Hg. simpl.
  split_and!.
  - exists dslots, sg.2. split_and!; [done| |done]. by destruct sg.
  - destruct (dget w (days st)) as [d|]; [|done]. exists d.
    split; [done|]. injection Hday as ->. done.
  - exists dt. split; [done|lia].
Qed.

Lemma finalize_slots_inv w day dslots l acc :
  (w, dslots) ∈ trk → (∀ sg, sg ∈ l → sg ∈ dslots) →
  (status day = Executing ∨ status day = Final) →
  status <$> dget w (days st) = Some (status day) →
  finalize_inv (finalizable strptime now st trk) st acc →
  finalize_inv (finalizable strptime now st trk) st
    (foldl (finalize_slot strptime (hour_floor now) w day) acc l).
Proof.
  intros Hw Hl Hstat Hday. revert acc.
  induction l as [|sg l IH]; intros acc Hinv; simpl; [done|].
  apply IH.
  - intros sg' Hin. apply Hl. by right.
  - eapply finalize_slot_inv; try done. apply Hl. left.
Qed.

Lemma finalize_tracked_day_inv ds acc :
  ds ∈ trk →
  finalize_inv (finalizable strptime now st trk) st acc →
  finalize_inv (finalizable strptime now st trk) st
    (finalize_tracked_day strptime (hour_floor now) acc ds).
Proof.
  intros Hin Hinv. unfold finalize_tracked_day.
  destruct (dget ds.1 (days acc.1)) as [day|] eqn:Hday; [|done].
  case_decide as Hstat; [|done].
  eapply finalize_slots_inv; try done.
  - by destruct ds.
  - destruct Hinv as (_ & _ & _ & Hst & _). rewrite <-Hst, Hday. done.
Qed.

Lemma finalize_days_inv l acc :
  (∀ ds, ds ∈ l → ds ∈ trk) →
  finalize_inv (finalizable strptime now st trk) st acc →
  finalize_inv (finalizable strptime now st trk) st
    (foldl (finalize_tracked_day strptime (hour_floor now)) acc l).
Proof.
  revert acc. induction l as [|ds l IH]; intros acc Hl Hinv; simpl; [done|].
  apply IH.
  - intros ds' Hin. apply Hl. by right.
  - apply finalize_tracked_day_inv; [|done]. apply Hl. left.
Qed.

Lemma finalize_past_gpu_slots_inv :
  finalize_inv (finalizable strptime now st trk) st
    ((finalize_past_gpu_slots strptime now st trk).1.1, 0%nat).
Proof.
  unfold finalize_past_gpu_slots.
  pose proof (finalize_days_inv trk (st, 0%nat) ltac:(done)
                (finalize_inv_refl _ _ _)) as Hinv.
  destruct (foldl _ _ trk) as [st' n]. simpl.
  destruct Hinv as (? & ? & ? & ? & ?). by split_and!.
Qed.
End finalize_loops.

End finalize_facts.


(** ** Empty sample maps *)


Section finalize_null.
Context (strptime : string → option Z).















End finalize_null.



Section telemetry_facts.
Context (slot_id : Z → Z → string).



End telemetry_facts.



(** ** Day rollover: payouts *)

Lemma foldl_bind {A B C} (f : A → C → A) (g : B → list C) a l :
  foldl (λ acc x, foldl f acc (g x)) a l = foldl f a (l ≫= g).
Proof.
  revert a. induction l as [|x l IH]; intros a; simpl; [done|].
  by rewrite IH, foldl_app.
Qed.

Lemma payouts_of_entries d :
  payouts_of d = foldl add_payout [] (day_entries d).
Proof. unfold payouts_of, day_entries. apply (foldl_bind add_payout). Qed.

Lemma sum_foldr_acc {A} (f : A → Z) es z :
  foldr (λ e acc, f e + acc) z es = foldr (λ e acc, f e + acc) 0 es + z.
Proof. induction es as [|e es IH]; simpl; lia. Qed.

Lemma day_commit_entries u d :
  day_commit u d = foldr (λ e acc, entry_commit u e + acc) 0 (day_entries d).
Proof.
  unfold day_commit, day_entries.
  induction (map_to_list (slots d)) as [|ks l IH]; [done|].
  rewrite bind_cons, foldr_app, (sum_foldr_acc (entry_commit u)), <-IH.
  simpl. unfold slot_commit. lia.
Qed.

Lemma elem_of_day_entries e d :
  e ∈ day_entries d ↔ ∃ s sl, slots d !! s = Some sl ∧ e ∈ gpu_prices sl.
Proof.
  unfold day_entries. rewrite list_elem_of_bind. split.
  - intros ([s sl] & He & Hin%elem_of_map_to_list). eauto.
  - intros (s & sl & Hs & He). exists (s, sl). split; [done|].
    by apply elem_of_map_to_list.
Qed.

Lemma add_payout_amount u p es :
  u ≠ "" →
  default 0%Qc (dget u (foldl add_payout p es)) =
  foldl (λ acc e, float_add acc (float_of_Z (price e)))
        (default 0%Qc (dget u p))
        (filter (λ e, winner e = Some u) es).
Proof.
  intros Hu. revert p. induction es as [|e es IH]; intros p; [done|].
  cbn [foldl]. rewrite IH.
  destruct (decide (winner e = Some u)) as [Hw|Hw].
  - rewrite filter_cons_True by done. cbn [foldl].
    unfold add_payout. rewrite Hw. unfold truthy.
    rewrite bool_decide_eq_true_2 by done.
    by rewrite dget_dset, decide_True by done.
  - rewrite filter_cons_False by done.
    assert (dget u (add_payout p e) = dget u p) as ->; [|done].
    unfold add_payout. destruct (winner e) as [w|]; [|done].
    destruct (truthy (Some w)); [|done].
    rewrite dget_dset, decide_False; [done|congruence].
Qed.

Lemma add_payout_present u p es :
  is_Some (dget u (foldl add_payout p es)) ↔
  is_Some (dget u p) ∨ (u ≠ "" ∧ ∃ e, e ∈ es ∧ winner e = Some u).
Proof.
  revert p. induction es as [|e es IH]; intros p; simpl.
  { split; [by left|]. intros [?|(_ & e & ?%elem_of_nil & _)]; done. }
  rewrite IH. unfold add_payout at 1.
  assert (is_Some (dget u match winner e with
                          | Some w => if truthy (Some w)
                                      then dset w (float_add
                                                     (default 0%Qc (dget w p))
                                                     (float_of_Z (price e))) p
                                      else p
                          | None => p end)
          ↔ is_Some (dget u p) ∨ (u ≠ "" ∧ winner e = Some u)) as ->.
  { destruct (winner e) as [w|]; simpl.
    - case_bool_decide as Hw.
      + rewrite dget_dset. case_decide as Hwu.
        * subst. split; [intros _; right; done|by eauto].
        * split; [by left|]. intros [?|[_ [= ->]]]; done.
      + assert (w = "") as -> by (by destruct (decide (w = ""))).
        split; [by left|]. intros [?|[? [= <-]]]; done.
    - split; [by left|]. intros [?|[_ ?]]; done. }
  split.
  - intros [[?|[? ?]]|(? & e' & ? & ?)]; [by left|right|right].
    + split; [done|]. exists e. split; [left|done].
    + split; [done|]. exists e'. split; [by right|done].
  - intros [?|(? & e' & [->|?]%elem_of_cons & ?)]; [by left; left|left; right|right]; eauto.
Qed.

Lemma add_payout_NoDup p es : NoDup p.*1 → NoDup (foldl add_payout p es).*1.
Proof.
  revert p. induction es as [|e es IH]; intros p Hp; simpl; [done|].
  apply IH. unfold add_payout. destruct (winner e); [|done].
  destruct (truthy _); [|done]. by apply dset_NoDup.
Qed.

Lemma payouts_of_spec u d :
  NoDup (payouts_of d).*1 ∧
  (is_Some (dget u (payouts_of d)) ↔ has_won u d) ∧
  (u ≠ "" → default 0%Qc (dget u (payouts_of d)) = won_amount u d).
Proof.
  rewrite payouts_of_entries. split_and!.
  - apply add_payout_NoDup. constructor.
  - rewrite add_payout_present. unfold has_won. split.
    + intros [[? ?]|(Hu & e & (s & sl & ? & ?)%elem_of_day_entries & Hw)]; [done|].
      eauto 10.
    + intros (Hu & s & sl & e & ? & ? & ?). right. split; [done|].
      exists e. split; [|done]. apply elem_of_day_entries. eauto.
  - intros Hu. by rewrite add_payout_amount by done.
Qed.

Lemma entry_commit_filter u es :
  foldr (λ e acc, entry_commit u e + acc) 0 es =
  foldr (λ e acc, price e + acc) 0 (filter (λ e, winner e = Some u) es).
Proof.
  induction es as [|e es IH]; [done|]. simpl. unfold entry_commit at 1.
  case_decide.
  - rewrite filter_cons_True by done. simpl. by rewrite IH.
  - rewrite filter_cons_False by done. by rewrite IH.
Qed.

(** The amount charged to a winner is the sum of the prices won, exactly,
    when the prices are non-negative and the sum is within 2^53. *)
Lemma won_amount_exact u d :
  (∀ e, e ∈ day_entries d → 0 ≤ price e) → day_commit u d ≤ 2 ^ 53 →
  won_amount u d = Qc_of_Z (day_commit u d).
Proof.
  intros Hpos Hle. unfold won_amount.
  rewrite day_commit_entries, entry_commit_filter in *.
  rewrite <-Z2Qc_inj_0. rewrite float_sum_exact; [done|done| |done].
  apply Forall_forall. intros e [_ He]%list_elem_of_filter. by apply Hpos.
Qed.

Lemma deduct_all us pa u :
  NoDup pa.*1 →
  foldl deduct us pa !! u =
  match dget u pa with
  | Some amount =>
      (λ usr, set_balance (max0 (float_sub (py_float (balance usr)) amount)) usr)
        <$> us !! u
  | None => us !! u
  end.
Proof.
  revert us. induction pa as [|[k a] pa IH]; intros us Hnd; simpl; [done|].
  apply NoDup_cons in Hnd as [Hk Hnd]. rewrite IH by done.
  case_decide as Hku.
  - subst k. assert (dget u pa = None) as -> by (by apply dget_None).
    unfold deduct. simpl.
    destruct (us !! u) as [usr|] eqn:Hu; [|by rewrite Hu].
    by rewrite lookup_insert_eq.
  - assert (deduct us (k, a) !! u = us !! u) as ->; [|done].
    unfold deduct. simpl.
    destruct (us !! k) as [usr|]; [|done]. rewrite lookup_insert_ne; [done|].
    by intros ->.
Qed.

(** ** Day rollover: finding days *)

Lemma sort_by_key_head {A} (l : list (Z * A)) h r :
  sort_by_key l = h :: r → h ∈ l ∧ ∀ y, y ∈ l → h.1 ≤ y.1.
Proof.
  revert h r. induction l as [|x l IH]; intros h r; simpl; [done|].
  unfold sort_by_key in *. simpl.
  destruct (foldr insert_by_key [] l) as [|h' r'] eqn:Hs.
  - assert (l = []) as ->.
    { apply Permutation_nil_r. rewrite <-(sort_by_key_perm l).
      unfold sort_by_key. by rewrite Hs. }
    simpl. intros [= <- <-]. split; [left|].
    intros y ->%list_elem_of_singleton. lia.
  - destruct (IH h' r' eq_refl) as [Hin Hmin]. simpl. case_decide as Hle.
    + intros [= <- <-]. split; [left|].
      intros y [->|Hy]%elem_of_cons; [lia|]. specialize (Hmin y Hy). lia.
    + intros [= <- <-]. split; [by right|].
      intros y [->|Hy]%elem_of_cons; [lia|by apply Hmin].
Qed.

Lemma find_days_by_status_nil s st :
  find_days_by_status s st = [] → ∀ k d, (k, d) ∈ days st → status d ≠ s.
Proof.
  unfold find_days_by_status. intros Hnil k d Hin Hs.
  assert ((k, d) ∈ sort_by_key (filter (λ kd : Z * Day, status kd.2 = s) (days st)))
    as Hin'.
  { rewrite sort_by_key_perm. by apply list_elem_of_filter. }
  rewrite Hnil in Hin'. by apply elem_of_nil in Hin'.
Qed.

Lemma find_days_by_status_head s st o od r :
  find_days_by_status s st = (o, od) :: r →
  (o, od) ∈ days st ∧ status od = s ∧
  ∀ k d, (k, d) ∈ days st → status d = s → o ≤ k.
Proof.
  unfold find_days_by_status. intros [Hin Hmin]%sort_by_key_head.
  apply list_elem_of_filter in Hin as [Hs Hin]. split_and!; [done..|].
  intros k d Hkd Hd. apply (Hmin (k, d)). by apply list_elem_of_filter.
Qed.

Lemma find_day_by_status_Some s st k d :
  find_day_by_status s st = Some (k, d) → (k, d) ∈ days st ∧ status d = s.
Proof.
  unfold find_day_by_status.
  destruct (list_find _ (days st)) as [[i kd]|] eqn:Hf; [|done].
  simpl. intros [= ->]. apply list_find_Some in Hf as (Hi & Hs & _).
  split; [by eapply list_elem_of_lookup_2|done].
Qed.

Lemma find_day_by_status_None s st :
  find_day_by_status s st = None → ∀ k d, (k, d) ∈ days st → status d ≠ s.
Proof.
  unfold find_day_by_status.
  destruct (list_find _ (days st)) as [[i kd]|] eqn:Hf; [done|].
  intros _ k d Hin. rewrite list_find_None, Forall_forall in Hf.
  apply (Hf _ Hin).
Qed.

(** ** Day rollover: calendar arithmetic *)

Lemma format_day_parse_day th k off :
  0 ≤ th < 24 → format_day (parse_day th k + off * DAY) = k + off.
Proof.
  intros Hth. unfold format_day, parse_day, DAY, HOUR.
  symmetry. apply (Z.div_unique _ _ _ (th * 3600)); lia.
Qed.

Lemma format_day_parse_day_0 th k : 0 ≤ th < 24 → format_day (parse_day th k) = k.
Proof.
  intros Hth. pose proof (format_day_parse_day th k 0 Hth) as H.
  by rewrite Z.mul_0_l, !Z.add_0_r in H.
Qed.

Lemma ensure_day_exists_days slot_id start s st :
  days (ensure_day_exists slot_id start s st).1 =
  dset (format_day start)
    (match dget (format_day start) (days st) with
     | Some existing => if has_data existing then existing else set_status s existing
     | None => mkDay (format_day start) s (fresh_slots slot_id (format_day start)) None
     end) (days st) ∧
  users (ensure_day_exists slot_id start s st).1 = users st ∧
  bid_log (ensure_day_exists slot_id start s st).1 = bid_log st ∧
  reserved_slots (ensure_day_exists slot_id start s st).1 = reserved_slots st ∧
  day_transition_hour (ensure_day_exists slot_id start s st).1 = day_transition_hour st.
Proof.
  unfold ensure_day_exists. by destruct (dget (format_day start) (days st)).
Qed.

(** ** Day rollover: the store after [advance_day_cycle] *)

Lemma advance_day_cycle_eq slot_id now st o od rest :
  NoDup (days st).*1 → 0 ≤ day_transition_hour st < 24 →
  find_days_by_status Open st = (o, od) :: rest →
  advance_day_cycle slot_id now st =
  (Done (o, o + 6),
   mkState
     ((λ u, if enabled u then refill o u else u) <$>
        foldl deduct (users st) (payouts_of od))
     (dset (o + 6) (mkDay (o + 6) Open (fresh_slots slot_id (o + 6)) None)
        (dpop (o + 6)
           (dalter (promote_day now) o
              (dalter (finalize_day now) (current_key_of now st)
                 (match find_day_by_status Executing st with
                  | Some _ => days st
                  | None =>
                      days (ensure_day_exists slot_id
                              (parse_day (day_transition_hour st)
                                 (current_key_of now st)) Executing st).1
                  end)))))
     (bid_log st) (reserved_slots st) (day_transition_hour st)).
Proof.
  intros Hnd Hth Hopen. unfold advance_day_cycle, current_key_of. rewrite Hopen.
  set (th := day_transition_hour st) in *.
  set (D0 := match find_day_by_status Executing st with
             | Some _ => days st
             | None => days (ensure_day_exists slot_id
                         (parse_day th (format_day (day_start_for th now)))
                         Executing st).1
             end).
  assert (NoDup D0.*1) as Hnd0.
  { subst D0. destruct (find_day_by_status Executing st) as [[e ed]|]; [done|].
    destruct (ensure_day_exists_days slot_id
      (parse_day th (format_day (day_start_for th now))) Executing st) as [-> _].
    by apply dset_NoDup. }
  assert (∀ ck D, NoDup D.*1 →
    dget (o + 6) (dpop (o + 6)
      (dalter (promote_day now) o (dalter (finalize_day now) ck D))) = None)
    as Hnone.
  { intros ck D HD. apply dget_dpop_eq. by rewrite !dalter_keys. }
  destruct (find_day_by_status Executing st) as [[e ed]|] eqn:He; simpl.
  - unfold ensure_day_exists. simpl.
    rewrite !format_day_parse_day by done. by rewrite Hnone.
  - destruct (ensure_day_exists_days slot_id
      (parse_day th (format_day (day_start_for th now))) Executing st)
      as (HD & HU & HL & HR & HT).
    destruct (ensure_day_exists slot_id _ Executing st) as [st1 d1] eqn:Hens.
    simpl in *. unfold ensure_day_exists. simpl.
    rewrite !format_day_parse_day by done.
    rewrite Hnone by done. simpl. unfold set_users, set_days; simpl.
    rewrite ?HU, ?HL, ?HR, ?HT. reflexivity.
Qed.

Lemma advance_day_cycle_users slot_id now st o od rest u :
  NoDup (days st).*1 → 0 ≤ day_transition_hour st < 24 →
  find_days_by_status Open st = (o, od) :: rest →
  match users st !! u with
  | None => users (advance_day_cycle slot_id now st).2 !! u = None
  | Some user =>
      ∃ b1, charged u od (balance user) b1 ∧
        users (advance_day_cycle slot_id now st).2 !! u =
        Some (let user1 := set_balance b1 user in
              if enabled user then refill o user1 else user1)
  end.
Proof.
  intros Hnd Hth Hopen.
  rewrite (advance_day_cycle_eq _ _ _ _ _ _ Hnd Hth Hopen). simpl.
  destruct (payouts_of_spec u od) as (Hpnd & Hwon & Hamount).
  rewrite lookup_fmap, deduct_all by done.
  destruct (users st !! u) as [user|] eqn:Hu.
  - destruct (dget u (payouts_of od)) as [amount|] eqn:Hp; simpl.
    + assert (has_won u od) as Hw by (apply Hwon; eauto).
      exists (max0 (float_sub (py_float (balance user)) amount)).
      split; [|done].
      left. split; [done|]. destruct Hw as [Hne _].
      specialize (Hamount Hne). simpl in Hamount. by rewrite Hamount.
    + exists (balance user). split.
      * right. split; [|done]. intros Hw%Hwon. by destruct Hw.
      * by destruct user.
  - by destruct (dget u (payouts_of od)).
Qed.

Lemma advance_day_cycle_dget slot_id now st o od rest k :
  NoDup (days st).*1 → 0 ≤ day_transition_hour st < 24 →
  find_days_by_status Open st = (o, od) :: rest →
  let ck := current_key_of now st in
  let D0 := match find_day_by_status Executing st with
            | Some _ => days st
            | None =>
                days (ensure_day_exists slot_id
                        (parse_day (day_transition_hour st) ck) Executing st).1
            end in
  let d1 := if decide (ck = k) then finalize_day now <$> dget k D0 else dget k D0 in
  dget k (days (advance_day_cycle slot_id now st).2) =
  if decide (k = o + 6)
  then Some (mkDay (o + 6) Open (fresh_slots slot_id (o + 6)) None)
  else if decide (o = k) then promote_day now <$> d1 else d1.
Proof.
  intros Hnd Hth Hopen ck D0 d1.
  rewrite (advance_day_cycle_eq _ _ _ _ _ _ Hnd Hth Hopen). simpl.
  rewrite dget_dset. case_decide as Hk6; [by rewrite decide_True|].
  rewrite decide_False by done. rewrite dget_dpop_ne by done.
  rewrite dget_dalter. subst d1 D0 ck.
  case_decide as Hko.
  - subst k. rewrite dget_dalter. by case_decide as Hc; [rewrite Hc|].
  - rewrite dget_dalter. by case_decide as Hc; [rewrite Hc|].
Qed.

Lemma advance_day_cycle_NoDup slot_id now st :
  NoDup (days st).*1 → 0 ≤ day_transition_hour st < 24 →
  NoDup (days (advance_day_cycle slot_id now st).2).*1.
Proof.
  intros Hnd Hth.
  destruct (find_days_by_status Open st) as [|[o od] rest] eqn:Hopen.
  { unfold advance_day_cycle. by rewrite Hopen. }
  rewrite (advance_day_cycle_eq _ _ _ _ _ _ Hnd Hth Hopen). simpl.
  apply dset_NoDup, dpop_NoDup. rewrite !dalter_keys.
  destruct (find_day_by_status Executing st); [done|].
  destruct (ensure_day_exists_days slot_id
    (parse_day (day_transition_hour st) (current_key_of now st)) Executing st)
    as [-> _].
  by apply dset_NoDup.
Qed.

(** The day stored under [k] when [advance_day_cycle] starts its updates:
    the stored day, or for today's key when no day is executing the day
    [ensure_day_exists] leaves there. *)
Lemma advance_day_cycle_start slot_id now st k :
  0 ≤ day_transition_hour st < 24 →
  let ck := current_key_of now st in
  let D0 := match find_day_by_status Executing st with
            | Some _ => days st
            | None =>
                days (ensure_day_exists slot_id
                        (parse_day (day_transition_hour st) ck) Executing st).1
            end in
  (k ≠ ck → dget k D0 = dget k (days st)) ∧
  (∀ d, dget k (days st) = Some d →
     ∃ d0, dget k D0 = Some d0 ∧ slots d0 = slots d ∧
           (status d0 = status d ∨ (k = ck ∧ status d0 = Executing))) ∧
  (find_day_by_status Executing st = None → is_Some (dget ck D0)).
Proof.
  intros Hth ck D0. subst D0.
  destruct (find_day_by_status Executing st) as [[e ed]|] eqn:He.
  { split_and!; [done|eauto|done]. }
  destruct (ensure_day_exists_days slot_id
    (parse_day (day_transition_hour st) ck) Executing st) as [-> _].
  rewrite format_day_parse_day_0 by done. split_and!.
  - intros Hk. rewrite dget_dset. by rewrite decide_False.
  - intros d Hd. rewrite dget_dset. case_decide as Hk; [|eauto].
    subst k. rewrite Hd. destruct (has_data d); [eauto|].
    exists (set_status Executing d). split_and!; [done..|by right].
  - intros _. rewrite dget_dset, decide_True by done. eauto.
Qed.

(** C3 (amended). One invocation of [advance_day_cycle] on a store with
    distinct day keys and a transition hour in 0..23.  With no open day it
    returns the "no open days" error and the store as it was.  Otherwise, [o]
    being the earliest open day: the call succeeds and reports [o] and
    [o + 6]; every user who won entries of [o] is charged in double
    arithmetic, the new balance being the double nearest to balance minus
    the sum of their prices, floored at zero (the sum itself is exact for
    non-negative prices adding up to at most 2^53), and every enabled user
    then gets the double nearest to balance plus daily budget (nothing else
    of a user changes but the rollover bookkeeping, and no user appears or
    disappears); the previously executing day becomes final and keeps its
    slots (unless it sits at key [o + 6], which is replaced); [o] becomes
    executing and keeps its slots; the day at [o + 6] is a fresh open day,
    whatever was stored there; when no day was executing the day of today's
    key exists afterwards; and every other day is as before. *)
Theorem advance_day_cycle_contract slot_id now st :
  NoDup (days st).*1 → 0 ≤ day_transition_hour st < 24 →
  let r := advance_day_cycle slot_id now st in
  match find_days_by_status Open st with
  | [] => r = (Failed ENoOpenDays, st)
  | (o, oday) :: _ =>
      (dget o (days st) = Some oday ∧ status oday = Open ∧
       ∀ k d, dget k (days st) = Some d → status d = Open → o ≤ k) ∧
      r.1 = Done (o, o + 6) ∧
      (∀ u, match users st !! u with
            | None => users r.2 !! u = None
            | Some user =>
                ∃ user' b1,
                  users r.2 !! u = Some user' ∧
                  charged u oday (balance user) b1 ∧
                  balance user' =
                    (if enabled user
                     then float_add (py_float b1)
                                    (float_of_Z (weekly_budget user))
                     else b1) ∧
                  weekly_budget user' = weekly_budget user ∧
                  enabled user' = enabled user ∧
                  outbid_notification_queue user' = outbid_notification_queue user
            end) ∧
      (∀ u, (∀ e, e ∈ day_entries oday → 0 ≤ price e) →
            day_commit u oday ≤ 2 ^ 53 →
            won_amount u oday = Qc_of_Z (day_commit u oday)) ∧
      (∀ e eday, find_day_by_status Executing st = Some (e, eday) → e ≠ o + 6 →
         ∃ d', dget e (days r.2) = Some d' ∧ status d' = Final ∧
               slots d' = slots eday) ∧
      (∃ d', dget o (days r.2) = Some d' ∧ status d' = Executing ∧
             slots d' = slots oday) ∧
      dget (o + 6) (days r.2) =
        Some (mkDay (o + 6) Open (fresh_slots slot_id (o + 6)) None) ∧
      (find_day_by_status Executing st = None →
         is_Some (dget (current_key_of now st) (days r.2))) ∧
      (∀ k, k ≠ o → k ≠ o + 6 → k ≠ current_key_of now st →
         dget k (days r.2) = dget k (days st)) ∧
      bid_log r.2 = bid_log st ∧ reserved_slots r.2 = reserved_slots st ∧
      day_transition_hour r.2 = day_transition_hour st
  end.
Proof.
  intros Hnd Hth r.
  destruct (find_days_by_status Open st) as [|[o od] rest] eqn:Hopen.
  { subst r. unfold advance_day_cycle. by rewrite Hopen. }
  destruct (find_days_by_status_head _ _ _ _ _ Hopen) as (Hin & Hso & Hmin).
  assert (dget o (days st) = Some od) as Ho by (by apply dget_NoDup_In).
  pose proof (advance_day_cycle_dget slot_id now st o od rest) as Hget.
  pose proof (advance_day_cycle_start slot_id now st) as Hstart.
  simpl in Hget, Hstart. fold r in Hget.
  split_and!.
  - done.
  - done.
  - intros k d Hk. apply Hmin. by apply dget_Some_In.
  - subst r. by rewrite (advance_day_cycle_eq _ _ _ _ _ _ Hnd Hth Hopen).
  - intros u. pose proof (advance_day_cycle_users slot_id now st o od rest u
                            Hnd Hth Hopen) as Hu. fold r in Hu.
    destruct (users st !! u) as [user|]; [|done].
    destruct Hu as (b1 & Hch & ->). eexists _, b1. split; [done|].
    split; [done|]. by destruct (enabled user) eqn:Hen.
  - intros u. apply won_amount_exact.
  - intros e ed He Hne.
    destruct (find_day_by_status_Some _ _ _ _ He) as [Hein Hes].
    assert (dget e (days st) = Some ed) as Hed by (by apply dget_NoDup_In).
    assert (o ≠ e) as Hoe by (intros <-; congruence).
    rewrite (Hget e Hnd Hth Hopen). rewrite decide_False by done.
    rewrite (decide_False (P := o = e)) by done.
    unfold current_key_of. rewrite He. rewrite decide_True by done.
    rewrite Hed. simpl. eexists. split; [done|].
    unfold finalize_day. simpl. by destruct (finalized_at ed).
  - destruct (Hstart o Hth) as (_ & Hkeep & _).
    destruct (Hkeep od Ho) as (d0 & Hd0 & Hsl & _).
    rewrite (Hget o Hnd Hth Hopen). rewrite decide_False by lia.
    rewrite decide_True by done. rewrite Hd0.
    case_decide; simpl; (eexists; split; [done|]); split; try done.
    unfold finalize_day. simpl. by destruct (finalized_at d0).
  - rewrite (Hget (o + 6) Hnd Hth Hopen). by rewrite decide_True.
  - intros He. destruct (Hstart (current_key_of now st) Hth) as (_ & _ & Hsome).
    destruct (Hsome He) as [d0 Hd0].
    rewrite (Hget _ Hnd Hth Hopen). case_decide; [done|].
    rewrite (decide_True (P := current_key_of now st = current_key_of now st))
      by done.
    rewrite Hd0. by case_decide.
  - intros k Hko Hk6 Hkc. destruct (Hstart k Hth) as (Hsame & _ & _).
    rewrite (Hget k Hnd Hth Hopen). rewrite !decide_False by done.
    by apply Hsame.
  - subst r. by rewrite (advance_day_cycle_eq _ _ _ _ _ _ Hnd Hth Hopen).
  - subst r. by rewrite (advance_day_cycle_eq _ _ _ _ _ _ Hnd Hth Hopen).
  - subst r. by rewrite (advance_day_cycle_eq _ _ _ _ _ _ Hnd Hth Hopen).
Qed.

Lemma advance_day_cycle_contract_witness :
  let r := advance_day_cycle jan1970_slot_id (DAY + 5) demo_state in
  r.1 = Done (1, 7) ∧
  (this ∘ balance) <$> users r.2 !! "alice" = Some (108 # 1) ∧
  (∃ d', dget 1 (days r.2) = Some d' ∧ status d' = Executing) ∧
  (∃ d', dget 0 (days r.2) = Some d' ∧ status d' = Final) ∧
  status <$> dget 7 (days r.2) = Some Open.
Proof.
  intros r.
  assert (NoDup (days demo_state).*1) as Hnd.
  { apply (bool_decide_unpack _). vm_compute. exact I. }
  assert (0 ≤ day_transition_hour demo_state < 24) as Hth by (simpl; lia).
  pose proof (advance_day_cycle_contract jan1970_slot_id (DAY + 5) demo_state
                Hnd Hth) as H.
  assert (find_days_by_status Open demo_state =
          [(1, demo_won "1970-01-02T09:00" 3 "alice" 2
                 (demo_day 1 Open ["1970-01-02T09:00"; "1970-01-02T10:00"]))])
    as Hopen by (vm_compute; reflexivity).
  rewrite Hopen in H. cbv beta iota zeta in H. fold r in H.
  destruct H as (_ & Hres & Husers & _ & Hfin & (d1 & Hd1 & Hs1 & _) & Hnew & _).
  destruct (Hfin 0 (demo_won "1970-01-01T10:00" 0 "alice" 4
                      (demo_day 0 Executing
                         ["1970-01-01T03:00"; "1970-01-01T10:00"])))
    as (d0 & Hd0 & Hs0 & _).
  - vm_compute. reflexivity.
  - lia.
  - specialize (Husers "alice").
    assert (users demo_state !! "alice" = Some (demo_user 10)) as Ha
      by (vm_compute; reflexivity).
    rewrite Ha in Husers. destruct Husers as (user' & b1 & Hu' & Hch & Hbal & _).
    assert (b1 = Qc_of_Z 8) as ->.
    { destruct Hch as [[_ ->]|[Hnot _]].
      - apply Qc_is_canon. vm_compute. reflexivity.
      - exfalso. apply Hnot. split; [done|].
        eexists "1970-01-02T09:00", _, _. split; [vm_compute; reflexivity|].
        split; [apply (list_elem_of_lookup_2 _ 3%nat); reflexivity|reflexivity]. }
    split_and!.
    + exact Hres.
    + rewrite Hu'. cbn [fmap option_fmap option_map compose]. rewrite Hbal.
      vm_compute. reflexivity.
    + exists d1. split; [exact Hd1|exact Hs1].
    + exists d0. split; [exact Hd0|exact Hs0].
    + change (1 + 6) with 7 in Hnew. rewrite Hnew. reflexivity.
Defined.

(** The refill is a double addition.  Bob holds 101.02 (a double) and won
    nothing on the day that starts: the rollover leaves the double nearest
    to 201.02, which is not the balance plus the daily budget of 100. *)
Lemma advance_day_cycle_rounds_the_refill :
  let r := advance_day_cycle jan1970_slot_id (DAY + 5) demo_refunded_state in
  (λ u, (this (balance u), weekly_budget u, enabled u))
    <$> users demo_refunded_state !! "bob"
    = Some (7108650536827617 # 70368744177664, 100, true) ∧
  (λ kd, (kd.1, dget "bob" (payouts_of kd.2)))
    <$> head (find_days_by_status Open demo_refunded_state) = Some (1, None) ∧
  r.1 = Done (1, 7) ∧
  (this ∘ balance) <$> users r.2 !! "bob"
    = Some (442047654831063 # 2199023255552) ∧
  balance <$> users r.2 !! "bob" ≠
    (λ u, (balance u + Qc_of_Z (weekly_budget u))%Qc)
      <$> users demo_refunded_state !! "bob".
Proof.
  split_and!.
  - vm_compute. reflexivity.
  - vm_compute. reflexivity.
  - vm_compute. reflexivity.
  - vm_compute. reflexivity.
  - intros H. apply (f_equal (fmap this)) in H. vm_compute in H. discriminate.
Qed.

(** ** The rolling week: the invariant of the day cycle *)

Lemma status_at_In st k s :
  NoDup (days st).*1 →
  status_at st k = Some s ↔ ∃ d, (k, d) ∈ days st ∧ status d = s.
Proof.
  intros Hnd. unfold status_at. split.
  - destruct (dget k (days st)) as [d|] eqn:Hd; [|done]. simpl.
    intros [= <-]. exists d. split; [by apply dget_Some_In|done].
  - intros (d & Hin & <-). by rewrite (dget_NoDup_In _ _ _ Hnd Hin).
Qed.

Lemma elem_of_status_keys st k s :
  NoDup (days st).*1 →
  k ∈ (filter (λ kd : Z * Day, status kd.2 = s) (days st)).*1 ↔
  status_at st k = Some s.
Proof.
  intros Hnd. rewrite status_at_In by done. rewrite list_elem_of_fmap. split.
  - intros ([k' d] & -> & [Hs Hin]%list_elem_of_filter). eauto.
  - intros (d & Hin & Hs). exists (k, d). split; [done|].
    by apply list_elem_of_filter.
Qed.

Lemma NoDup_status_keys st s :
  NoDup (days st).*1 →
  NoDup (filter (λ kd : Z * Day, status kd.2 = s) (days st)).*1.
Proof.
  intros Hnd. eapply sublist_NoDup; [exact Hnd|].
  apply fmap_sublist, sublist_filter.
Qed.

Lemma week_ok_find_executing e st :
  week_ok e st → ∃ d, find_day_by_status Executing st = Some (e, d).
Proof.
  intros [Hnd Hw].
  destruct (find_day_by_status Executing st) as [[k d]|] eqn:Hf.
  - destruct (find_day_by_status_Some _ _ _ _ Hf) as [Hin Hs].
    assert (status_at st k = Some Executing) as Hk
      by (apply status_at_In; eauto).
    apply Hw in Hk as ->. eauto.
  - assert (status_at st e = Some Executing) as He by (by apply Hw).
    apply status_at_In in He as (d & Hin & Hs); [|done].
    by destruct (find_day_by_status_None _ _ Hf _ _ Hin).
Qed.

Lemma week_ok_find_open e st :
  week_ok e st → ∃ d rest, find_days_by_status Open st = (e + 1, d) :: rest.
Proof.
  intros [Hnd Hw].
  assert (status_at st (e + 1) = Some Open) as H1 by (apply Hw; lia).
  apply status_at_In in H1 as (d1 & Hin1 & Hs1); [|done].
  destruct (find_days_by_status Open st) as [|[o od] rest] eqn:Hf.
  - by destruct (find_days_by_status_nil _ _ Hf _ _ Hin1).
  - destruct (find_days_by_status_head _ _ _ _ _ Hf) as (Hin & Hs & Hmin).
    assert (status_at st o = Some Open) as Ho by (apply status_at_In; eauto).
    apply Hw in Ho. specialize (Hmin _ _ Hin1 Hs1).
    assert (o = e + 1) as -> by lia. eauto.
Qed.

Lemma week_ok_counts e st :
  week_ok e st →
  (filter (λ kd : Z * Day, status kd.2 = Executing) (days st)).*1 = [e] ∧
  (find_days_by_status Open st).*1 ≡ₚ seqZ (e + 1) 6.
Proof.
  intros Hw. pose proof Hw as [Hnd Hk]. split.
  - apply Permutation_singleton_r.
    apply NoDup_Permutation; [by apply NoDup_status_keys|apply NoDup_singleton|].
    intros k. rewrite elem_of_status_keys, list_elem_of_singleton by done.
    apply Hk.
  - unfold find_days_by_status. rewrite sort_by_key_perm.
    apply NoDup_Permutation; [by apply NoDup_status_keys|apply NoDup_seqZ|].
    intros k. rewrite elem_of_status_keys, elem_of_seqZ by done.
    rewrite (proj2 (Hk k)). lia.
Qed.

Lemma status_finalize_day now d : status (finalize_day now d) = Final.
Proof. unfold finalize_day. simpl. by destruct (finalized_at d). Qed.

Section week_facts.
Context (slot_id : Z → Z → string).

Lemma ensure_open_spec st k :
  NoDup (days st).*1 → 0 ≤ day_transition_hour st < 24 →
  NoDup (days (ensure_open slot_id st k)).*1 ∧
  day_transition_hour (ensure_open slot_id st k) = day_transition_hour st ∧
  ∀ k', status_at (ensure_open slot_id st k) k' =
        if decide (k = k') then Some Open else status_at st k'.
Proof.
  intros Hnd Hth. unfold ensure_open, status_at.
  destruct (dget k (days st)) as [d|] eqn:Hd.
  - case_decide as Hs; simpl.
    + split_and!; [by rewrite dalter_keys|done|].
      intros k'. rewrite dget_dalter. case_decide; [|done]. by rewrite Hd.
    + split_and!; [done..|]. intros k'. case_decide as Hk; [|done].
      subst k'. rewrite Hd. simpl. f_equal.
      by destruct (decide (status d = Open)) as [?|Hn]; [|destruct Hs].
  - destruct (ensure_day_exists_days slot_id
                (parse_day (day_transition_hour st) k) Open st)
      as (-> & _ & _ & _ & ->).
    rewrite format_day_parse_day_0 by done. rewrite Hd.
    split_and!; [by apply dset_NoDup|done|].
    intros k'. rewrite dget_dset. by case_decide.
Qed.

Lemma ensure_open_all ks st :
  NoDup (days st).*1 → 0 ≤ day_transition_hour st < 24 →
  NoDup (days (foldl (ensure_open slot_id) st ks)).*1 ∧
  day_transition_hour (foldl (ensure_open slot_id) st ks) = day_transition_hour st ∧
  ∀ k', status_at (foldl (ensure_open slot_id) st ks) k' =
        if decide (k' ∈ ks) then Some Open else status_at st k'.
Proof.
  revert st. induction ks as [|k ks IH]; intros st Hnd Hth; cbn [foldl].
  { split_and!; [done..|]. intros k'. rewrite decide_False; [done|].
    apply not_elem_of_nil. }
  destruct (ensure_open_spec st k Hnd Hth) as (Hnd1 & Hth1 & Hst1).
  destruct (IH (ensure_open slot_id st k) Hnd1 ltac:(by rewrite Hth1))
    as (Hnd2 & Hth2 & Hst2).
  split_and!; [done|congruence|].
  intros k'. rewrite Hst2, Hst1.
  destruct (decide (k' ∈ ks)) as [Hin|Hni].
  - rewrite decide_True; [done|by right].
  - case_decide as Hk.
    + subst k'. rewrite decide_True; [done|by left].
    + rewrite decide_False; [done|]. rewrite elem_of_cons. naive_solver.
Qed.

Lemma elem_of_expected_open_days th ck k :
  0 ≤ th < 24 →
  k ∈ (λ offset, format_day (parse_day th ck + offset * DAY)) <$> seqZ 1 6 ↔
  ck < k ≤ ck + 6.
Proof.
  intros Hth. rewrite list_elem_of_fmap. split.
  - intros (off & -> & Hoff%elem_of_seqZ).
    rewrite format_day_parse_day by done. lia.
  - intros Hk. exists (k - ck). rewrite format_day_parse_day by done.
    split; [lia|]. apply elem_of_seqZ. lia.
Qed.

Lemma advance_day_cycle_week now e st :
  week_ok e st → 0 ≤ day_transition_hour st < 24 →
  week_ok (e + 1) (advance_day_cycle slot_id now st).2 ∧
  day_transition_hour (advance_day_cycle slot_id now st).2 = day_transition_hour st.
Proof.
  intros Hw Hth. pose proof Hw as [Hnd Hk].
  destruct (week_ok_find_executing _ _ Hw) as [ed He].
  destruct (week_ok_find_open _ _ Hw) as (od & rest & Hopen).
  split; [|by rewrite (advance_day_cycle_eq _ _ _ _ _ _ Hnd Hth Hopen)].
  split; [by apply advance_day_cycle_NoDup|].
  intros k. unfold status_at at 1 2.
  rewrite (advance_day_cycle_dget slot_id now st _ _ _ k Hnd Hth Hopen).
  unfold current_key_of. rewrite He.
  destruct (find_day_by_status_Some _ _ _ _ He) as [Hein _].
  pose proof (dget_NoDup_In _ _ _ Hnd Hein) as Hed.
  destruct (find_days_by_status_head _ _ _ _ _ Hopen) as (Hoin & _ & _).
  pose proof (dget_NoDup_In _ _ _ Hnd Hoin) as Hod.
  destruct (Hk k) as [Hex Hop]. unfold status_at in Hex, Hop.
  case_decide as H7; [subst k; simpl; split; split; intros; (done || lia)|].
  destruct (decide (e + 1 = k)) as [H1|H1].
  - subst k. rewrite decide_False by lia. rewrite Hod. simpl.
    split; split; intros; (done || lia).
  - destruct (decide (e = k)) as [H0|H0].
    + subst k. rewrite Hed. simpl. rewrite status_finalize_day.
      split; split; intros; (done || lia).
    + rewrite Hex, Hop. split; split; lia.
Qed.

Lemma auto_advance_loop_week n now result e st :
  week_ok e st → 0 ≤ day_transition_hour st < 24 →
  ∃ e', e ≤ e' ≤ e + Z.of_nat n ∧
        week_ok e' (auto_advance_loop slot_id n now result st).2.
Proof.
  revert result e st. induction n as [|n IH]; intros result e st Hw Hth; simpl.
  { exists e. split; [lia|done]. }
  destruct (week_ok_find_executing _ _ Hw) as [ed ->].
  case_decide; [exists e; split; [lia|done]|].
  destruct (advance_day_cycle_week now e st Hw Hth) as [Hw' Hth'].
  destruct (advance_day_cycle slot_id now st) as [r st'] eqn:Hadv. simpl in *.
  destruct (IH (Some r) (e + 1) st' Hw' ltac:(by rewrite Hth')) as (e' & He' & Hw'').
  exists e'. split; [lia|done].
Qed.

End week_facts.

Lemma day_statuses_keys st : (day_statuses st).*1 = (days st).*1.
Proof.
  unfold day_statuses. rewrite <-list_fmap_compose. by apply list_fmap_ext.
Qed.

Lemma update_system_state_eq strptime slot_id now st trk :
  (update_system_state strptime slot_id now st trk).1 =
  (finalize_past_gpu_slots strptime now
     (maybe_auto_advance slot_id now
        (foldl (ensure_open slot_id)
           (match find_day_by_status Executing st with
            | Some _ => st
            | None =>
                (ensure_day_exists slot_id
                   (day_start_for (day_transition_hour st) now) Executing st).1
            end)
           ((λ offset,
               format_day (parse_day (day_transition_hour st)
                             (current_key_of now st) + offset * DAY))
              <$> seqZ 1 6))).2 trk).1.1.
Proof.
  unfold update_system_state, current_key_of.
  destruct (find_day_by_status Executing st) as [[e ed]|];
    destruct (maybe_auto_advance _ _ _) as [r st3];
    by destruct (finalize_past_gpu_slots _ _ _ _) as [[st4 trk'] n].
Qed.

Lemma update_system_state_current slot_id now st :
  update_ready now st →
  let st1 := match find_day_by_status Executing st with
             | Some _ => st
             | None =>
                 (ensure_day_exists slot_id
                    (day_start_for (day_transition_hour st) now) Executing st).1
             end in
  NoDup (days st1).*1 ∧ day_transition_hour st1 = day_transition_hour st ∧
  ∀ k, status_at st1 k =
       if decide (k = current_key_of now st) then Some Executing
       else status_at st k.
Proof.
  intros (Hnd & Hth & Hex & Hop & Hdata). unfold current_key_of in *.
  destruct (find_day_by_status Executing st) as [[e ed]|] eqn:He; simpl.
  - split_and!; [done..|]. intros k. case_decide as Hk; [|done]. subst k.
    destruct (find_day_by_status_Some _ _ _ _ He) as [Hin Hs].
    apply status_at_In; eauto.
  - destruct (ensure_day_exists_days slot_id
                (day_start_for (day_transition_hour st) now) Executing st)
      as (HD & _ & _ & _ & HT).
    split_and!; [rewrite HD; by apply dset_NoDup|done|].
    intros k. unfold status_at. rewrite HD, dget_dset.
    case_decide as Hk1; [|by rewrite decide_False].
    rewrite decide_True by done.
    destruct (dget _ (days st)) as [d|] eqn:Hd; [|done].
    by rewrite (Hdata eq_refl d eq_refl).
Qed.

(** C2 (amended).  On a store that is ready for it -- distinct keys, a
    transition hour in 0..23, no executing day besides the current one, no
    open day outside the current day and the six after it, and no winners on
    today's day when no day is executing -- [update_system_state] returns a
    store with exactly one executing day [e] and exactly six open days, the
    six days following [e]; [e] is between zero and ten days after the
    current day. *)
Theorem update_system_state_week strptime slot_id now st trk :
  update_ready now st →
  let st' := (update_system_state strptime slot_id now st trk).1 in
  ∃ e, current_key_of now st ≤ e ≤ current_key_of now st + 10 ∧
       week_ok e st' ∧
       (filter (λ kd : Z * Day, status kd.2 = Executing) (days st')).*1 = [e] ∧
       (find_days_by_status Open st').*1 ≡ₚ seqZ (e + 1) 6.
Proof.
  intros Hready st'. subst st'. rewrite update_system_state_eq.
  destruct (update_system_state_current slot_id now st Hready)
    as (Hnd1 & Hth1 & Hst1).
  destruct Hready as (Hnd & Hth & Hex & Hop & _).
  set (ck := current_key_of now st) in *.
  set (st1 := match find_day_by_status Executing st with
              | Some _ => st
              | None => _
              end) in *.
  set (ks := (λ offset, format_day (parse_day (day_transition_hour st) ck
                                      + offset * DAY)) <$> seqZ 1 6).
  destruct (ensure_open_all slot_id ks st1 Hnd1 ltac:(by rewrite Hth1))
    as (Hnd2 & Hth2 & Hst2).
  set (st2 := foldl (ensure_open slot_id) st1 ks) in *.
  assert (week_ok ck st2) as Hw2.
  { split; [done|]. intros k. rewrite Hst2, Hst1.
    pose proof (elem_of_expected_open_days (day_transition_hour st) ck k Hth)
      as Hks. fold ks in Hks.
    destruct (decide (k ∈ ks)) as [Hin|Hni].
    - apply Hks in Hin. split; split; intros; (done || lia).
    - case_decide as Hk.
      + subst k. split; split; intros; (done || lia).
      + split; split.
        * apply Hex.
        * done.
        * intros Hk'. specialize (Hop k Hk'). lia.
        * intros Hk'. by apply Hks in Hk'. }
  destruct (auto_advance_loop_week slot_id 10 now None ck st2 Hw2
              ltac:(by rewrite Hth2, Hth1)) as (e & He & Hw3).
  fold (maybe_auto_advance slot_id now st2) in Hw3.
  set (st3 := (maybe_auto_advance slot_id now st2).2) in *.
  destruct (finalize_past_gpu_slots_inv strptime now st3 trk)
    as (Hds & _ & _ & Hstat & _). cbn [fst] in Hds, Hstat.
  set (st4 := (finalize_past_gpu_slots strptime now st3 trk).1.1) in *.
  assert (week_ok e st4) as Hw4.
  { destruct Hw3 as [Hnd3 Hk3]. split.
    - by rewrite <-day_statuses_keys, Hds, day_statuses_keys.
    - intros k. unfold status_at. rewrite Hstat. apply Hk3. }
  exists e. split; [simpl in He; lia|]. split; [done|].
  by apply week_ok_counts.
Qed.

Lemma update_system_state_week_witness :
  update_ready 5 demo_state ∧
  ∃ e, 0 ≤ e ≤ 10 ∧
       week_ok e (update_system_state jan1970_strptime jan1970_slot_id 5
                    demo_state demo_tracking).1.
Proof.
  assert (update_ready 5 demo_state) as Hready.
  { split_and!.
    - apply (bool_decide_unpack _). vm_compute. exact I.
    - simpl. lia.
    - simpl. lia.
    - intros k Hk. change (current_key_of 5 demo_state) with 0.
      unfold status_at in Hk. cbn [days demo_state dget] in Hk.
      repeat case_decide; [lia|discriminate Hk|discriminate Hk].
    - intros k Hk. change (current_key_of 5 demo_state) with 0.
      unfold status_at in Hk. cbn [days demo_state dget] in Hk.
      repeat case_decide; [discriminate Hk|lia|discriminate Hk].
    - intros Hf. vm_compute in Hf. discriminate Hf. }
  split; [exact Hready|].
  destruct (update_system_state_week jan1970_strptime jan1970_slot_id 5
              demo_state demo_tracking Hready) as (e & He & Hw & _).
  exists e. split; [exact He|exact Hw].
Defined.

(** The claim as stated fails: with day 1 executing and day 0 marked open
    again, [update_system_state] early on day 1 returns a store with seven
    open days, one of them before the executing day. *)
Lemma update_system_state_keeps_stray_open_day :
  let st' := (update_system_state jan1970_strptime jan1970_slot_id (DAY + 5)
                demo_stray_state []).1 in
  NoDup (days demo_stray_state).*1 ∧
  day_statuses demo_stray_state = [(0, Open); (1, Executing)] ∧
  day_statuses st' =
    [(0, Open); (1, Executing); (2, Open); (3, Open); (4, Open); (5, Open);
     (6, Open); (7, Open)] ∧
  (find_days_by_status Open st').*1 = [0; 2; 3; 4; 5; 6; 7].
Proof.
  split_and!.
  - apply (bool_decide_unpack _). vm_compute. exact I.
  - vm_compute. reflexivity.
  - vm_compute. reflexivity.
  - vm_compute. reflexivity.
Qed.
